(** * Ember: the Berkeley DB coordination layer of src/db.h

    A shallow embedding of [CDBEnv::TxnBegin] and of the record accessor
    [CDB] (Read, Write, Erase, Exists, ReadAtCursor, TxnBegin, TxnCommit,
    TxnAbort), followed by the properties the specification states about
    them.

    The storage engine (Berkeley DB) is external to the repository.  Every
    method is therefore embedded as a small program that issues engine
    calls ([bdbE]) and continues with the engine's answer; what the method
    does for each possible answer is read off the program itself, and what
    it does on top of a concrete or a lawful engine is obtained by running
    the program ([run]).  The reference counting of open files lives in
    db.cpp and is embedded from the specification ([Registry]). *)

From Stdlib Require Import ZArith.
From Stdlib.Strings Require Import Byte.
From stdpp Require Import base option list gmap strings.

Open Scope Z_scope.

(** ** Bytes, handles and the engine's constants *)

Abbreviation bytes := (list byte).

#[global] Instance byte_eq_dec : EqDecision byte := Byte.byte_eq_dec.
#[global] Instance byte_countable : Countable byte :=
  inj_countable Byte.to_N Byte.of_N Byte.of_to_N.

(** Engine objects are only ever held through pointers ([DB*], [DB_TXN*],
    [DB_ENV*], [DBC*]); a pointer is [option] of an opaque identifier and
    [None] is [NULL]. *)
Definition DB := positive.
Definition DB_TXN := positive.
Definition DB_ENV := positive.
Definition DBC := positive.

(** What the translation unit is compiled against: the macros of the
    engine's <db.h> that db.h mentions, [SER_DISK] of serialize.h,
    [CLIENT_VERSION] of version.h, and whether [NDEBUG] is defined.  They
    are parameters.  The only facts assumed are the ones the
    engine documents: its own error returns are negative, and the
    positioning flag [DB_NEXT] is none of the four seek flags. *)
Class Build := {
  NDEBUG : bool;
  SER_DISK : Z;
  CLIENT_VERSION : Z;
  DB_NOTFOUND : Z;
  DB_NOOVERWRITE : Z;
  DB_DBT_MALLOC : Z;
  DB_TXN_WRITE_NOSYNC : Z;
  DB_NEXT : Z;
  DB_SET : Z;
  DB_SET_RANGE : Z;
  DB_GET_BOTH : Z;
  DB_GET_BOTH_RANGE : Z;
  DB_NOTFOUND_negative : DB_NOTFOUND < 0;
  DB_NEXT_not_seek :
    DB_NEXT ≠ DB_SET ∧ DB_NEXT ≠ DB_SET_RANGE ∧
    DB_NEXT ≠ DB_GET_BOTH ∧ DB_NEXT ≠ DB_GET_BOTH_RANGE
}.

(** [DBT]: the engine's (pointer, length, flags) triple.  The pair
    [data]/[size] is modelled by the byte string the pointer designates,
    [None] for a null pointer; [size] is then the length of that string. *)
Record DBT := mkDBT { data : option bytes; flags : Z }.

Definition DBT_zero : DBT := {| data := None; flags := 0 |}.

Definition DBT_size (d : DBT) : nat :=
  match data d with Some b => length b | None => 0%nat end.

Definition DBT_point (d : DBT) (b : bytes) : DBT :=
  {| data := Some b; flags := flags d |}.

Definition DBT_or_flags (d : DBT) (f : Z) : DBT :=
  {| data := data d; flags := Z.lor (flags d) f |}.

(** ** Engine calls *)

(** One constructor per engine entry point that db.h calls, indexed by
    what the call hands back: the [int] status and the [DBT]s or pointers
    it writes through its out-parameters.  [DbOpen] and [DbClose] are the
    calls of the file-handle registry. *)
Inductive bdbE : Type → Type :=
| DbGet (pdb : DB) (txn : option DB_TXN) (key val : DBT) (fl : Z) : bdbE (Z * DBT)
| DbPut (pdb : DB) (txn : option DB_TXN) (key val : DBT) (fl : Z) : bdbE Z
| DbDel (pdb : DB) (txn : option DB_TXN) (key : DBT) (fl : Z) : bdbE Z
| DbExists (pdb : DB) (txn : option DB_TXN) (key : DBT) (fl : Z) : bdbE Z
| DbcGet (pcursor : DBC) (key val : DBT) (fl : Z) : bdbE (Z * DBT * DBT)
| EnvTxnBegin (dbenv : DB_ENV) (parent : option DB_TXN) (fl : Z) : bdbE (Z * option DB_TXN)
| DbTxnCommit (txn : DB_TXN) (fl : Z) : bdbE Z
| DbTxnAbort (txn : DB_TXN) : bdbE Z
| DbOpen (dbenv : DB_ENV) (file : string) : bdbE (Z * option DB)
| DbClose (pdb : DB) : bdbE Z.

(** Ways in which a method stops the process instead of returning. *)
Inductive stop :=
| AssertionFailed (msg : string)
| NullDereference.

(** Programs over engine calls. *)
Inductive prog (R : Type) : Type :=
| Done (r : R)
| Stop (why : stop)
| Call {X : Type} (e : bdbE X) (k : X → prog R).

Arguments Done {R} r.
Arguments Stop {R} why.
Arguments Call {R X} e k.

Fixpoint prog_bind {A B} (p : prog A) (f : A → prog B) : prog B :=
  match p with
  | Done a => f a
  | Stop why => Stop why
  | Call e k => Call e (λ x, prog_bind (k x) f)
  end.

#[global] Instance prog_ret : MRet prog := λ _ r, Done r.
#[global] Instance prog_mbind : MBind prog := λ _ _ f p, prog_bind p f.

(** [assert(e)] of <cassert>: nothing when the build defines [NDEBUG],
    otherwise the process is aborted when [e] is false. *)
Definition c_assert `{B : Build} (e : bool) (msg : string) : prog unit :=
  if NDEBUG then Done tt
  else if e then Done tt else Stop (AssertionFailed msg).

(** What a run of a program ends in. *)
Inductive outcome (R : Type) : Type :=
| Returned (r : R)
| Stopped (why : stop).

Arguments Returned {R} r.
Arguments Stopped {R} why.

(** Every execution of [p], whatever the engine answers, returns a value
    satisfying [P]; in particular no execution stops the process. *)
Fixpoint returns_only {R} (P : R → Prop) (p : prog R) : Prop :=
  match p with
  | Done r => P r
  | Stop _ => False
  | Call e k => ∀ x, returns_only P (k x)
  end.

(** Some sequence of engine answers makes [p] return [r]. *)
Inductive yields {R} : prog R → R → Prop :=
| yields_done r : yields (Done r) r
| yields_call {X} (e : bdbE X) k x r : yields (k x) r → yields (Call e k) r.

(** ** An engine *)

Class Engine := {
  St : Type;
  answer : ∀ X, bdbE X → St → X * St
}.
Arguments answer {_ _} e st.

Fixpoint run `{E : Engine} {R} (p : prog R) (st : St) : outcome R * St :=
  match p with
  | Done r => (Returned r, st)
  | Stop why => (Stopped why, st)
  | Call e k => let '(x, st') := answer e st in run (k x) st'
  end.

(** ** Serialization (serialize.h) *)

(** [CDataStream]: the bytes from [&s[0]] to the end of the stream, with
    the stream's type and version tags.  db.h only takes the address and
    size of a stream, appends to it, retags it and clears it. *)
Record CDataStream := mkStream { vch : bytes; nType : Z; nVersion : Z }.

Definition CDataStream_new (nTypeIn nVersionIn : Z) : CDataStream :=
  {| vch := []; nType := nTypeIn; nVersion := nVersionIn |}.

Definition SetType (s : CDataStream) (n : Z) : CDataStream :=
  {| vch := vch s; nType := n; nVersion := nVersion s |}.

Definition clear (s : CDataStream) : CDataStream :=
  {| vch := []; nType := nType s; nVersion := nVersion s |}.

Definition write (s : CDataStream) (b : bytes) : CDataStream :=
  {| vch := vch s ++ b; nType := nType s; nVersion := nVersion s |}.

(** What [ss >> value] leaves behind: the decoded value, or a
    [std::exception] thrown part-way with [value] in whatever state the
    decoder had reached. *)
Inductive unser (T : Type) : Type :=
| Parsed (v : T)
| Threw (partial : T).

Arguments Parsed {T} v.
Arguments Threw {T} partial.

(** The codec of a serializable type, at a stream type and version:
    [operator<<] and [operator>>] of [CDataStream]. *)
Class Serializable (T : Type) := {
  Serialize : Z → Z → T → bytes;
  Unserialize : Z → Z → bytes → T → unser T
}.

Definition stream_out `{Serializable T} (s : CDataStream) (x : T) : CDataStream :=
  write s (Serialize (nType s) (nVersion s) x).

Definition stream_in `{Serializable T} (s : CDataStream) (old : T) : unser T :=
  Unserialize (nType s) (nVersion s) (vch s) old.

Infix "<<" := stream_out (at level 34, left associativity).

(** ** CDBEnv *)

Module CDBEnv.

(** [pathEnv] and the lock [cs_db] play no part in what follows. *)
Record t := mk {
  fDbEnvInit : bool;
  fMockDb : bool;
  strPath : string;
  dbenv : option DB_ENV;
  mapFileUseCount : gmap string Z;
  mapDb : gmap string DB
}.

Definition IsMock (env : t) : bool := fMockDb env.

Definition TxnBegin (env : t) (flags : Z) : prog (option DB_TXN) :=
  match dbenv env with
  | None => Stop NullDereference
  | Some e =>
      Call (EnvTxnBegin e None flags) (λ '(ret, ptxn),
        if bool_decide (ptxn = None) || negb (bool_decide (ret = 0))
        then Done None
        else Done ptxn)
  end.

(** The call with the default argument, [TxnBegin()]. *)
Definition TxnBegin_default `{B : Build} (env : t) : prog (option DB_TXN) :=
  TxnBegin env DB_TXN_WRITE_NOSYNC.

End CDBEnv.

(** ** CDB *)

Module CDB.

Record t := mk {
  pdb : option DB;
  strFile : string;
  activeTxn : option DB_TXN;
  fReadOnly : bool
}.

Section Records.
Context `{B : Build}.
Context {K T : Type} `{SK : Serializable K} `{SV : Serializable T}.

(** [value] is an out-parameter: the result carries the returned
    [bool] and the value as the call leaves it.  The [memset] clears
    the local key stream, which nothing reads afterwards. *)
Definition Read (a : t) (key : K) (value : T) : prog (bool * T) :=
  let datKey := DBT_zero in
  let datValue := DBT_zero in
  match pdb a with
  | None => Done (false, value)
  | Some db =>
      let ssKey := CDataStream_new SER_DISK CLIENT_VERSION << key in
      let datKey := DBT_point datKey (vch ssKey) in
      let datValue := DBT_or_flags datValue DB_DBT_MALLOC in
      Call (DbGet db (activeTxn a) datKey datValue 0) (λ '(ret, datValue),
        match data datValue with
        | None => Done (false, value)
        | Some buf =>
            let ssValue := mkStream buf SER_DISK CLIENT_VERSION in
            match stream_in ssValue value with
            | Threw partial => Done (false, partial)
            | Parsed v => Done (bool_decide (ret = 0), v)
            end
        end)
  end.

Definition Write (a : t) (key : K) (value : T) (fOverwrite : bool) : prog bool :=
  let datKey := DBT_zero in
  let datValue := DBT_zero in
  match pdb a with
  | None => Done false
  | Some db =>
      _ ← (if fReadOnly a
           then c_assert false "Write called on database in read-only mode"
           else Done tt);
      let ssKey := CDataStream_new SER_DISK CLIENT_VERSION << key in
      let datKey := DBT_point datKey (vch ssKey) in
      let ssValue := CDataStream_new SER_DISK CLIENT_VERSION << value in
      let datValue := DBT_point datValue (vch ssValue) in
      Call (DbPut db (activeTxn a) datKey datValue
              (if fOverwrite then 0 else DB_NOOVERWRITE))
           (λ ret, Done (bool_decide (ret = 0)))
  end.

Definition Erase (a : t) (key : K) : prog bool :=
  let datKey := DBT_zero in
  match pdb a with
  | None => Done false
  | Some db =>
      _ ← (if fReadOnly a
           then c_assert false "Erase called on database in read-only mode"
           else Done tt);
      let ssKey := CDataStream_new SER_DISK CLIENT_VERSION << key in
      let datKey := DBT_point datKey (vch ssKey) in
      Call (DbDel db (activeTxn a) datKey 0)
           (λ ret, Done (bool_decide (ret = 0) || bool_decide (ret = DB_NOTFOUND)))
  end.

Definition Exists (a : t) (key : K) : prog bool :=
  let datKey := DBT_zero in
  match pdb a with
  | None => Done false
  | Some db =>
      let ssKey := CDataStream_new SER_DISK CLIENT_VERSION << key in
      let datKey := DBT_point datKey (vch ssKey) in
      Call (DbExists db (activeTxn a) datKey 0)
           (λ ret, Done (bool_decide (ret = 0)))
  end.

End Records.

Section Cursor.
Context `{B : Build}.

Definition seeks_key (fFlags : Z) : bool :=
  bool_decide (fFlags = DB_SET) || bool_decide (fFlags = DB_SET_RANGE) ||
  bool_decide (fFlags = DB_GET_BOTH) || bool_decide (fFlags = DB_GET_BOTH_RANGE).

Definition seeks_value (fFlags : Z) : bool :=
  bool_decide (fFlags = DB_GET_BOTH) || bool_decide (fFlags = DB_GET_BOTH_RANGE).

(** The two streams are passed by reference: the result carries the
    returned [int] and the streams as the call leaves them. *)
Definition ReadAtCursor (pcursor : option DBC) (ssKey ssValue : CDataStream)
    (fFlags : Z) : prog (Z * CDataStream * CDataStream) :=
  let datKey := DBT_zero in
  let datValue := DBT_zero in
  let datKey := if seeks_key fFlags then DBT_point datKey (vch ssKey) else datKey in
  let datValue := if seeks_value fFlags then DBT_point datValue (vch ssValue) else datValue in
  let datKey := DBT_or_flags datKey DB_DBT_MALLOC in
  let datValue := DBT_or_flags datValue DB_DBT_MALLOC in
  match pcursor with
  | None => Stop NullDereference
  | Some c =>
      Call (DbcGet c datKey datValue fFlags) (λ '(ret, datKey, datValue),
        if negb (bool_decide (ret = 0)) then Done (ret, ssKey, ssValue)
        else
          match data datKey, data datValue with
          | Some kbuf, Some vbuf =>
              let ssKey := write (clear (SetType ssKey SER_DISK)) kbuf in
              let ssValue := write (clear (SetType ssValue SER_DISK)) vbuf in
              Done (0, ssKey, ssValue)
          | _, _ => Done (99999, ssKey, ssValue)
          end)
  end.

(** The call with the default argument [fFlags = DB_NEXT]. *)
Definition ReadAtCursor_default (pcursor : option DBC) (ssKey ssValue : CDataStream) :=
  ReadAtCursor pcursor ssKey ssValue DB_NEXT.

End Cursor.

Section Transactions.
Context `{B : Build}.

(** [bitdb] is the process-wide environment the accessor begins its
    transactions in. *)
Definition TxnBegin (bitdb : CDBEnv.t) (a : t) : prog (bool * t) :=
  if bool_decide (pdb a = None) || negb (bool_decide (activeTxn a = None))
  then Done (false, a)
  else
    ptxn ← CDBEnv.TxnBegin_default bitdb;
    match ptxn with
    | None => Done (false, a)
    | Some txn =>
        Done (true, {| pdb := pdb a; strFile := strFile a;
                       activeTxn := Some txn; fReadOnly := fReadOnly a |})
    end.

Definition TxnCommit (a : t) : prog (bool * t) :=
  match pdb a, activeTxn a with
  | Some _, Some txn =>
      Call (DbTxnCommit txn 0) (λ ret,
        Done (bool_decide (ret = 0),
              {| pdb := pdb a; strFile := strFile a;
                 activeTxn := None; fReadOnly := fReadOnly a |}))
  | _, _ => Done (false, a)
  end.

Definition TxnAbort (a : t) : prog (bool * t) :=
  match pdb a, activeTxn a with
  | Some _, Some txn =>
      Call (DbTxnAbort txn) (λ ret,
        Done (bool_decide (ret = 0),
              {| pdb := pdb a; strFile := strFile a;
                 activeTxn := None; fReadOnly := fReadOnly a |}))
  | _, _ => Done (false, a)
  end.

End Transactions.

Section Version.
Context `{B : Build} `{SS : Serializable string} `{SI : Serializable Z}.

(** [nVersion] is an out-parameter: it is zeroed, then read into. *)
Definition ReadVersion (a : t) (nVersion : Z) : prog (bool * Z) :=
  let nVersion := 0 in
  Read a "version"%string nVersion.

Definition WriteVersion (a : t) (nVersion : Z) : prog bool :=
  Write a "version"%string nVersion true.

End Version.

End CDB.

(** ** What is expected of the engine *)

(** The engine is trusted to be a key-value store ("assumed correct" in the
    specification).  [view st db txn] is the content of [db] as seen
    through transaction [txn]; the laws fix the status and the effect of
    the four point operations on the view of the handle and transaction
    they are issued with, and nothing else.  A put may be refused (for
    instance under [DB_NOOVERWRITE]), in which case it changes nothing. *)
Class KvEngine `{B : Build} (E : Engine) := {
  view : St → DB → option DB_TXN → gmap bytes bytes;
  get_law st db txn kb kf dv :
    ∀ ret dv' st',
      answer (DbGet db txn (mkDBT (Some kb) kf) dv 0) st = ((ret, dv'), st') →
      view st' db txn = view st db txn ∧
      match view st db txn !! kb with
      | Some vb => ret = 0 ∧ data dv' = Some vb
      | None => ret = DB_NOTFOUND ∧ data dv' = data dv
      end;
  put_law st db txn kb kf vb vf fl :
    ∀ ret st',
      answer (DbPut db txn (mkDBT (Some kb) kf) (mkDBT (Some vb) vf) fl) st = (ret, st') →
      (ret = 0 ∧ view st' db txn = <[kb:=vb]> (view st db txn)) ∨
      (ret ≠ 0 ∧ view st' db txn = view st db txn);
  del_law st db txn kb kf :
    ∀ ret st',
      answer (DbDel db txn (mkDBT (Some kb) kf) 0) st = (ret, st') →
      match view st db txn !! kb with
      | Some _ => ret = 0 ∧ view st' db txn = delete kb (view st db txn)
      | None => ret = DB_NOTFOUND ∧ view st' db txn = view st db txn
      end;
  exists_law st db txn kb kf :
    ∀ ret st',
      answer (DbExists db txn (mkDBT (Some kb) kf) 0) st = (ret, st') →
      view st' db txn = view st db txn ∧
      (ret = 0 ↔ is_Some (view st db txn !! kb))
}.

(** A reference engine: one map per handle, every call applied at once
    (transactions are handed out but give no isolation), cursors always at
    their end, [DB_NOTFOUND - 7] standing for the engine's "key exists"
    refusal.  It serves as the concrete instance of the laws. *)
Module MapEngine.

Record state := mk {
  files : gmap DB (gmap bytes bytes);
  names : gmap string DB;
  next : positive
}.

Definition content (st : state) (db : DB) : gmap bytes bytes :=
  default ∅ (files st !! db).

Definition store (st : state) (db : DB) (m : gmap bytes bytes) : state :=
  {| files := <[db:=m]> (files st); names := names st; next := next st |}.

Definition EINVAL : Z := 22.

Definition reply `{B : Build} {X} (e : bdbE X) (st : state) : X * state :=
  match e in bdbE X return X * state with
  | DbGet db _ key val _ =>
      match data key with
      | None => ((EINVAL, val), st)
      | Some kb =>
          match content st db !! kb with
          | Some vb => ((0, mkDBT (Some vb) (flags val)), st)
          | None => ((DB_NOTFOUND, val), st)
          end
      end
  | DbPut db _ key val fl =>
      match data key, data val with
      | Some kb, Some vb =>
          if bool_decide (fl = DB_NOOVERWRITE ∧ is_Some (content st db !! kb))
          then (DB_NOTFOUND - 7, st)
          else (0, store st db (<[kb:=vb]> (content st db)))
      | _, _ => (EINVAL, st)
      end
  | DbDel db _ key _ =>
      match data key with
      | None => (EINVAL, st)
      | Some kb =>
          match content st db !! kb with
          | Some _ => (0, store st db (delete kb (content st db)))
          | None => (DB_NOTFOUND, st)
          end
      end
  | DbExists db _ key _ =>
      match data key with
      | None => (EINVAL, st)
      | Some kb =>
          match content st db !! kb with
          | Some _ => (0, st)
          | None => (DB_NOTFOUND, st)
          end
      end
  | DbcGet _ key val _ => ((DB_NOTFOUND, key, val), st)
  | EnvTxnBegin _ _ _ =>
      ((0, Some (next st)),
       {| files := files st; names := names st; next := Pos.succ (next st) |})
  | DbTxnCommit _ _ => (0, st)
  | DbTxnAbort _ => (0, st)
  | DbOpen _ file =>
      match names st !! file with
      | Some db => ((0, Some db), st)
      | None =>
          ((0, Some (next st)),
           {| files := <[next st:=∅]> (files st);
              names := <[file:=next st]> (names st);
              next := Pos.succ (next st) |})
      end
  | DbClose _ => (0, st)
  end.

Definition empty : state := {| files := ∅; names := ∅; next := 1%positive |}.

#[global] Instance engine `{B : Build} : Engine := {| St := state; answer := @reply _ |}.

End MapEngine.

(** ** Sequences of record operations on one accessor *)

(** A call of one of the four record operations, at any key and value
    types. *)
Inductive op : Type :=
| OpRead {K T} `{Serializable K} `{Serializable T} (key : K) (value : T)
| OpWrite {K T} `{Serializable K} `{Serializable T} (key : K) (value : T) (fOverwrite : bool)
| OpErase {K} `{Serializable K} (key : K)
| OpExists {K} `{Serializable K} (key : K).

(** The bytes a key or a value reaches the engine as: what [ss << x]
    leaves in a fresh [CDataStream ss(SER_DISK, CLIENT_VERSION)]. *)
Definition encoded `{B : Build} {T} `{ST : Serializable T} (x : T) : bytes :=
  vch (CDataStream_new SER_DISK CLIENT_VERSION << x).

(** The bytes the operation hands to the engine as its key. *)
Definition op_key `{B : Build} (o : op) : bytes :=
  match o with
  | OpRead key _ => encoded key
  | OpWrite key _ _ => encoded key
  | OpErase key => encoded key
  | OpExists key => encoded key
  end.

Definition forget {R} (r : outcome R) : outcome unit :=
  match r with Returned _ => Returned tt | Stopped why => Stopped why end.

Definition run_op `{B : Build} `{E : Engine} (a : CDB.t) (o : op) (st : St) : outcome unit * St :=
  match o with
  | OpRead key value => let '(r, st') := run (CDB.Read a key value) st in (forget r, st')
  | OpWrite key value ow => let '(r, st') := run (CDB.Write a key value ow) st in (forget r, st')
  | OpErase key => let '(r, st') := run (CDB.Erase a key) st in (forget r, st')
  | OpExists key => let '(r, st') := run (CDB.Exists a key) st in (forget r, st')
  end.

Fixpoint run_ops `{B : Build} `{E : Engine} (a : CDB.t) (ops : list op) (st : St) : outcome unit * St :=
  match ops with
  | [] => (Returned tt, st)
  | o :: ops' =>
      match run_op a o st with
      | (Returned _, st') => run_ops a ops' st'
      | (Stopped why, st') => (Stopped why, st')
      end
  end.

(** A value round-trips through its codec when decoding its encoding
    gives it back, whatever the variable decoded into held before. *)
Definition roundtrips `{B : Build} `{ST : Serializable T} (x : T) : Prop :=
  ∀ old, stream_in (mkStream (encoded x) SER_DISK CLIENT_VERSION) old = Parsed x.

(** The transaction pointer of an accessor is only ever set while it has a
    handle. *)
Definition txn_needs_handle (a : CDB.t) : Prop :=
  is_Some (CDB.activeTxn a) → is_Some (CDB.pdb a).

(** ** The file-handle registry and the life of an accessor (db.cpp) *)

(** db.h declares [CDB]'s constructor, [CDB::Close] and
    [CDBEnv::CloseDb] and gives [~CDB() { Close(); }]; the bodies are in
    db.cpp.  They are embedded from the specification's description of the
    Environment Manager (section 4.1) and of the accessor's construction
    and destruction (section 4.2). *)
Module Registry.

Definition use_count (env : CDBEnv.t) (F : string) : Z :=
  default 0 (CDBEnv.mapFileUseCount env !! F).

Definition with_maps (env : CDBEnv.t) (counts : gmap string Z) (dbs : gmap string DB)
    : CDBEnv.t :=
  {| CDBEnv.fDbEnvInit := CDBEnv.fDbEnvInit env;
     CDBEnv.fMockDb := CDBEnv.fMockDb env;
     CDBEnv.strPath := CDBEnv.strPath env;
     CDBEnv.dbenv := CDBEnv.dbenv env;
     CDBEnv.mapFileUseCount := counts;
     CDBEnv.mapDb := dbs |}.

(** Modelled from the spec: the body of the file open that [CDB]'s
    constructor performs (db.cpp).  "If the file is already open,
    increments its reference count and returns the existing handle;
    otherwise opens a new handle inside the environment, inserts it with
    reference count 1.  Fails with FileOpenError if the environment is
    not open or the engine rejects the open." *)
Definition OpenFile (env : CDBEnv.t) (F : string) : prog (option DB * CDBEnv.t) :=
  match CDBEnv.dbenv env with
  | None => Done (None, env)
  | Some e =>
      match CDBEnv.mapDb env !! F with
      | Some h =>
          Done (Some h,
                with_maps env (<[F:=use_count env F + 1]> (CDBEnv.mapFileUseCount env))
                          (CDBEnv.mapDb env))
      | None =>
          Call (DbOpen e F) (λ '(ret, ph),
            match ph with
            | Some h =>
                if bool_decide (ret = 0)
                then Done (Some h,
                           with_maps env (<[F:=1]> (CDBEnv.mapFileUseCount env))
                                     (<[F:=h]> (CDBEnv.mapDb env)))
                else Done (None, env)
            | None => Done (None, env)
            end)
      end
  end.

(** Modelled from the spec: the body of the file release behind
    [CDB::Close] and [CDBEnv::CloseDb] (db.cpp).  "Decrements reference
    count; when it reaches zero, closes the underlying handle and removes
    both map entries.  No-op if the file is not currently tracked."  The
    overview adds that the handle is closed "while the environment is not
    in mock/ephemeral mode": the engine-level close is skipped there. *)
Definition CloseFile (env : CDBEnv.t) (F : string) : prog CDBEnv.t :=
  match CDBEnv.mapFileUseCount env !! F with
  | None => Done env
  | Some n =>
      if bool_decide (n - 1 = 0)
      then
        let env' := with_maps env (delete F (CDBEnv.mapFileUseCount env))
                              (delete F (CDBEnv.mapDb env)) in
        match CDBEnv.mapDb env !! F with
        | Some h =>
            if CDBEnv.IsMock env then Done env'
            else Call (DbClose h) (λ _, Done env')
        | None => Done env'
        end
      else
        Done (with_maps env (<[F:=n - 1]> (CDBEnv.mapFileUseCount env)) (CDBEnv.mapDb env))
  end.

(** Modelled from the spec: [CDB]'s constructor (db.cpp).  "Open(fileName,
    mode) where mode encodes read-only vs read-write intent; internally
    calls Environment Manager OpenFile.  Fails if the environment is not
    open or the engine open fails."  A failed open leaves the accessor
    without a handle. *)
Definition CDB_open (env : CDBEnv.t) (strFilename : string) (readonly : bool)
    : prog (CDB.t * CDBEnv.t) :=
  '(ph, env') ← OpenFile env strFilename;
  Done ({| CDB.pdb := ph; CDB.strFile := strFilename;
           CDB.activeTxn := None; CDB.fReadOnly := readonly |}, env').

(** Modelled from the spec: the body of [CDB::Close] (db.cpp), which the
    destructor of db.h calls.  It "releases the file handle via CloseFile
    and, if a transaction is still active, aborts it"; an accessor that
    holds no handle has nothing to release. *)
Definition Close (env : CDBEnv.t) (a : CDB.t) : prog (CDB.t * CDBEnv.t) :=
  match CDB.pdb a with
  | None => Done (a, env)
  | Some _ =>
      _ ← match CDB.activeTxn a with
          | Some txn => Call (DbTxnAbort txn) (λ _, Done tt)
          | None => Done tt
          end;
      env' ← CloseFile env (CDB.strFile a);
      Done ({| CDB.pdb := None; CDB.strFile := CDB.strFile a;
               CDB.activeTxn := None; CDB.fReadOnly := CDB.fReadOnly a |}, env')
  end.

(** The process: the environment [bitdb] and the accessors alive. *)
Record sys := mk { bitdb : CDBEnv.t; live : list CDB.t }.

(** A fresh environment, opened or not, tracks no file. *)
Definition fresh (mock : bool) (path : string) (e : option DB_ENV) : sys :=
  {| bitdb := {| CDBEnv.fDbEnvInit := bool_decide (is_Some e);
                 CDBEnv.fMockDb := mock; CDBEnv.strPath := path;
                 CDBEnv.dbenv := e;
                 CDBEnv.mapFileUseCount := ∅; CDBEnv.mapDb := ∅ |};
     live := [] |}.

(** Accessors are constructed, begin and end transactions, and are
    destroyed; the engine answers as it likes. *)
Inductive step `{B : Build} : sys → sys → Prop :=
| step_construct s F ro a env' :
    yields (CDB_open (bitdb s) F ro) (a, env') →
    step s {| bitdb := env'; live := a :: live s |}
| step_destroy s i a a' env' :
    live s !! i = Some a →
    yields (Close (bitdb s) a) (a', env') →
    step s {| bitdb := env'; live := delete i (live s) |}
| step_txn_begin s i a b a' :
    live s !! i = Some a →
    yields (CDB.TxnBegin (bitdb s) a) (b, a') →
    step s {| bitdb := bitdb s; live := <[i:=a']> (live s) |}
| step_txn_commit s i a b a' :
    live s !! i = Some a →
    yields (CDB.TxnCommit a) (b, a') →
    step s {| bitdb := bitdb s; live := <[i:=a']> (live s) |}
| step_txn_abort s i a b a' :
    live s !! i = Some a →
    yields (CDB.TxnAbort a) (b, a') →
    step s {| bitdb := bitdb s; live := <[i:=a']> (live s) |}.

Inductive reachable `{B : Build} : sys → Prop :=
| reach_fresh mock path e : reachable (fresh mock path e)
| reach_step s s' : reachable s → step s s' → reachable s'.

(** Whether accessor [a] holds file [F] open. *)
Definition holds (F : string) (a : CDB.t) : bool :=
  bool_decide (CDB.strFile a = F) && bool_decide (is_Some (CDB.pdb a)).

Definition count_holds (F : string) (l : list CDB.t) : nat :=
  length (filter (λ a, holds F a = true) l).

(** The number of live accessors that opened [F] successfully. *)
Definition opened (F : string) (s : sys) : nat := count_holds F (live s).

(** What the two maps and the live accessors have to do with each
    other. *)
Record consistent (s : sys) : Prop := {
  counts_positive : ∀ F n, CDBEnv.mapFileUseCount (bitdb s) !! F = Some n → 1 ≤ n;
  same_files : ∀ F, is_Some (CDBEnv.mapDb (bitdb s) !! F) ↔
                    is_Some (CDBEnv.mapFileUseCount (bitdb s) !! F);
  counts_live : ∀ F, use_count (bitdb s) F = Z.of_nat (opened F s)
}.

(** One accessor on wallet.dat, opened in a fresh environment to which
    the engine handed handle 7. *)
Definition one_wallet : sys :=
  {| bitdb := with_maps (bitdb (fresh false "/data" (Some 1%positive)))
                (<["wallet.dat":=1]> ∅) (<["wallet.dat":=7%positive]> ∅);
     live := [ {| CDB.pdb := Some 7%positive; CDB.strFile := "wallet.dat";
                  CDB.activeTxn := None; CDB.fReadOnly := false |} ] |}.

End Registry.

(** ** A sample build, codec and accessors *)

(** Constants in the style of a Berkeley DB 4.8 <db.h>; nothing below
    depends on the particular values. *)
Definition sample_build (ndebug : bool) : Build.
Proof.
  refine {| NDEBUG := ndebug; SER_DISK := 2; CLIENT_VERSION := 60300;
            DB_NOTFOUND := -30988; DB_NOOVERWRITE := 20; DB_DBT_MALLOC := 4;
            DB_TXN_WRITE_NOSYNC := 32; DB_NEXT := 16; DB_SET := 26;
            DB_SET_RANGE := 27; DB_GET_BOTH := 8; DB_GET_BOTH_RANGE := 10 |};
    [reflexivity | repeat split; discriminate].
Defined.

(** A one-byte record: encoded as itself, decoded from the first byte of
    the stream, with "end of data" thrown on an empty stream. *)
#[global] Instance byte_serializable : Serializable byte := {|
  Serialize _ _ b := [b];
  Unserialize _ _ buf old := match buf with b :: _ => Parsed b | [] => Threw old end
|}.

Definition sample_accessor (readonly : bool) : CDB.t :=
  {| CDB.pdb := Some 1%positive; CDB.strFile := "wallet.dat";
     CDB.activeTxn := None; CDB.fReadOnly := readonly |}.

(** An open accessor holding transaction [txn]. *)
Definition sample_txn_accessor (txn : DB_TXN) : CDB.t :=
  {| CDB.pdb := Some 1%positive; CDB.strFile := "wallet.dat";
     CDB.activeTxn := Some txn; CDB.fReadOnly := false |}.

Definition sample_active_accessor : CDB.t := sample_txn_accessor 5%positive.

Definition closed_accessor : CDB.t :=
  {| CDB.pdb := None; CDB.strFile := "wallet.dat";
     CDB.activeTxn := None; CDB.fReadOnly := false |}.

Definition sample_env : CDBEnv.t :=
  {| CDBEnv.fDbEnvInit := true; CDBEnv.fMockDb := false; CDBEnv.strPath := "/data";
     CDBEnv.dbenv := Some 1%positive;
     CDBEnv.mapFileUseCount := ∅; CDBEnv.mapDb := ∅ |}.

Definition sample_stream (b : bytes) : CDataStream := mkStream b 1 60300.

(** A store in which, under handle 1, key "k" holds zero bytes, which do
    not decode as a one-byte record. *)
Definition damaged_store : MapEngine.state :=
  MapEngine.store MapEngine.empty 1%positive {[ ["k"%byte] := [] ]}.

(** ** Reading operations, and codecs for the version record *)

(** Whether an operation is one of the two that only look a record up. *)
Definition op_reads (o : op) : bool :=
  match o with
  | OpRead _ _ | OpExists _ => true
  | OpWrite _ _ _ | OpErase _ => false
  end.

Definition byte_of_Z (z : Z) : byte := default "000"%byte (Byte.of_N (Z.to_N z)).

Definition Z_of_byte (b : byte) : Z := Z.of_N (Byte.to_N b).

(** A sample codec for [int]: four bytes, least significant first, two's
    complement; decoding a shorter stream throws. *)
Definition sample_int_codec : Serializable Z := {|
  Serialize _ _ n :=
    [byte_of_Z (n `mod` 256); byte_of_Z ((n `div` 256) `mod` 256);
     byte_of_Z ((n `div` 65536) `mod` 256); byte_of_Z ((n `div` 16777216) `mod` 256)];
  Unserialize _ _ buf old :=
    match buf with
    | b0 :: b1 :: b2 :: b3 :: _ =>
        let u := Z_of_byte b0 + 256 * Z_of_byte b1 + 65536 * Z_of_byte b2
                 + 16777216 * Z_of_byte b3 in
        Parsed (if bool_decide (u < 2147483648) then u else u - 4294967296)
    | _ => Threw old
    end
|}.

(** A sample codec for [std::string]: the characters themselves. *)
Definition sample_string_codec : Serializable string := {|
  Serialize _ _ str := String.list_byte_of_string str;
  Unserialize _ _ buf _ := Parsed (String.string_of_list_byte buf)
|}.

(** * Properties *)

(** ** Running programs *)

Lemma run_bind `{E : Engine} {A R} (p : prog A) (f : A → prog R) (st : St) :
  run (p ≫= f) st =
  match run p st with
  | (Returned a, st') => run (f a) st'
  | (Stopped why, st') => (Stopped why, st')
  end.
Proof.
  revert st. induction p as [a | why | X e k IH]; intros st; simpl; try done.
  destruct (answer e st) as [x st']. apply IH.
Qed.

Lemma returns_only_impl {R} (P Q : R → Prop) (p : prog R) :
  (∀ r, P r → Q r) → returns_only P p → returns_only Q p.
Proof. intros HPQ. induction p; simpl; eauto; done. Qed.

Lemma returns_only_run `{E : Engine} {R} (P : R → Prop) (p : prog R) (st : St) :
  returns_only P p → ∃ r, (run p st).1 = Returned r ∧ P r.
Proof.
  revert st. induction p as [a | why | X e k IH]; simpl; intros st Hp; [eauto | done |].
  destruct (answer e st) as [x st']. by apply IH.
Qed.

Lemma yields_returns_only {R} (P : R → Prop) (p : prog R) (r : R) :
  returns_only P p → yields p r → P r.
Proof.
  intros Hp Hy. induction Hy as [r | X e k x r Hy IH]; simpl in *; [done |].
  apply IH, Hp.
Qed.

Lemma yields_inv {R} (p : prog R) (r : R) :
  yields p r →
  match p with
  | Done r' => r' = r
  | Stop _ => False
  | Call e k => ∃ x, yields (k x) r
  end.
Proof. destruct 1; eauto. Qed.

Lemma yields_bind {A R} (p : prog A) (f : A → prog R) (r : R) :
  yields (p ≫= f) r ↔ ∃ a, yields p a ∧ yields (f a) r.
Proof.
  split.
  - induction p as [a | why | X e k IH]; simpl; intros Hy.
    + exists a. split; [constructor | done].
    + by apply yields_inv in Hy.
    + apply yields_inv in Hy as [x Hy]. apply IH in Hy as (a & Hp & Hf).
      exists a. split; [by econstructor | done].
  - intros (a & Hp & Hf). induction Hp as [a | X e k x a Hp IH]; simpl; [done |].
    econstructor. by apply IH.
Qed.

(** ** Null handle *)

(** C9. With a null database handle, Read, Write, Erase and Exists are
    each the program that returns false at once: they issue no engine
    call, leave the caller's value as it was, and leave the state of any
    engine they are run on untouched. *)
Theorem null_handle_returns_false `{B : Build} {K T} `{SK : Serializable K}
    `{SV : Serializable T} (a : CDB.t) (key : K) (value : T) (fOverwrite : bool) :
  CDB.pdb a = None →
  (CDB.Read a key value = Done (false, value) ∧
   CDB.Write a key value fOverwrite = Done false ∧
   CDB.Erase a key = Done false ∧
   CDB.Exists a key = Done false) ∧
  (∀ (E : Engine) (st : St),
     run (CDB.Read a key value) st = (Returned (false, value), st) ∧
     run (CDB.Write a key value fOverwrite) st = (Returned false, st) ∧
     run (CDB.Erase a key) st = (Returned false, st) ∧
     run (CDB.Exists a key) st = (Returned false, st)).
Proof.
  intros Hnull.
  unfold CDB.Read, CDB.Write, CDB.Erase, CDB.Exists. rewrite Hnull.
  repeat split.
Qed.

Lemma null_handle_returns_false_witness :
  CDB.pdb closed_accessor = None ∧
  CDB.Write (B := sample_build false) closed_accessor "k"%byte "v"%byte true = Done false.
Proof.
  split; [reflexivity |].
  apply (null_handle_returns_false (B := sample_build false)
           closed_accessor "k"%byte "v"%byte true).
  reflexivity.
Defined.

(** ** Transactions of the environment *)

(** C5. On an open environment, [CDBEnv::TxnBegin] issues exactly one
    engine call, [txn_begin] on the environment with no parent and the
    caller's flags; the default flags are [DB_TXN_WRITE_NOSYNC]; it hands
    back the engine's transaction when the engine reports 0 with a
    non-null transaction and null otherwise; and every execution returns
    (nothing is thrown, the process is not stopped). *)
Theorem env_txn_begin_null_on_failure `{B : Build} (env : CDBEnv.t) (e : DB_ENV)
    (flags : Z) :
  CDBEnv.dbenv env = Some e →
  (∃ k, CDBEnv.TxnBegin env flags = Call (EnvTxnBegin e None flags) k ∧
        ∀ ret ptxn,
          (ret ≠ 0 ∨ ptxn = None → k (ret, ptxn) = Done None) ∧
          (ret = 0 → k (ret, ptxn) = Done ptxn)) ∧
  CDBEnv.TxnBegin_default env = CDBEnv.TxnBegin env DB_TXN_WRITE_NOSYNC ∧
  returns_only (λ _, True) (CDBEnv.TxnBegin env flags).
Proof.
  intros Henv. unfold CDBEnv.TxnBegin_default, CDBEnv.TxnBegin. rewrite Henv.
  split; [eexists; split; [reflexivity |] | split; [reflexivity |]].
  - intros ret ptxn. split.
    + intros [Hret | ->]; [| done].
      rewrite (bool_decide_eq_false_2 (ret = 0)) by done.
      by rewrite orb_true_r.
    + intros ->. by destruct ptxn.
  - intros [ret ptxn]. simpl. by case_match.
Qed.

Lemma env_txn_begin_null_on_failure_witness :
  CDBEnv.dbenv sample_env = Some 1%positive ∧
  returns_only (λ _, True) (CDBEnv.TxnBegin sample_env 0).
Proof.
  split; [reflexivity |].
  apply (env_txn_begin_null_on_failure (B := sample_build false) sample_env 1%positive 0).
  reflexivity.
Defined.

(** ** Writing through a read-only accessor *)

(** C1, as the specification states it, fails: in a build with assertions
    the write on an open read-only accessor stops the process at the
    assertion; it does not return false. *)
Lemma readonly_write_counterexample :
  CDB.Write (B := sample_build false) (sample_accessor true) "k"%byte "v"%byte true
    = Stop (AssertionFailed "Write called on database in read-only mode") ∧
  CDB.Write (B := sample_build false) (sample_accessor true) "k"%byte "v"%byte true
    ≠ Done false.
Proof. split; [reflexivity | discriminate]. Qed.

(** C1, amended.  Write and Erase first test the handle and return false
    when it is null, read-only or not.  On an open read-only accessor the
    next statement is [assert]: where assertions are compiled in, both
    stop the process there, before any engine call; where [NDEBUG] removes
    them, nothing is tested and both go on to the engine exactly as on a
    writable accessor. *)
Theorem readonly_write_asserts `{B : Build} {K T} `{SK : Serializable K}
    `{SV : Serializable T} (a : CDB.t) (key : K) (value : T) (fOverwrite : bool) :
  CDB.fReadOnly a = true →
  (CDB.pdb a = None →
     CDB.Write a key value fOverwrite = Done false ∧ CDB.Erase a key = Done false) ∧
  (is_Some (CDB.pdb a) → NDEBUG = false →
     CDB.Write a key value fOverwrite
       = Stop (AssertionFailed "Write called on database in read-only mode") ∧
     CDB.Erase a key
       = Stop (AssertionFailed "Erase called on database in read-only mode")) ∧
  (NDEBUG = true →
     let w := {| CDB.pdb := CDB.pdb a; CDB.strFile := CDB.strFile a;
                 CDB.activeTxn := CDB.activeTxn a; CDB.fReadOnly := false |} in
     CDB.Write a key value fOverwrite = CDB.Write w key value fOverwrite ∧
     CDB.Erase a key = CDB.Erase w key).
Proof.
  intros Hro. unfold CDB.Write, CDB.Erase, c_assert. rewrite Hro. simpl.
  split; [| split].
  - by intros ->.
  - intros [db ->] ->. done.
  - intros ->. by destruct (CDB.pdb a).
Qed.

Lemma readonly_write_asserts_witness :
  CDB.fReadOnly (sample_accessor true) = true ∧
  CDB.Erase (B := sample_build false) (sample_accessor true) "k"%byte
    = Stop (AssertionFailed "Erase called on database in read-only mode").
Proof.
  split; [reflexivity |].
  apply (readonly_write_asserts (B := sample_build false)
           (sample_accessor true) "k"%byte "v"%byte true); [reflexivity | by eexists | reflexivity].
Defined.

(** ** Transactions of an accessor *)

Lemma TxnBegin_keeps `{B : Build} (bitdb : CDBEnv.t) (a : CDB.t) (b : bool) (a' : CDB.t) :
  txn_needs_handle a → yields (CDB.TxnBegin bitdb a) (b, a') →
  txn_needs_handle a' ∧ CDB.pdb a' = CDB.pdb a ∧ CDB.strFile a' = CDB.strFile a.
Proof.
  unfold txn_needs_handle, CDB.TxnBegin.
  intros Ha Hy. destruct a as [p f t ro]; simpl in *.
  destruct p as [db |], t as [txn |]; simpl in Hy;
    try (apply yields_inv in Hy; simplify_eq; by auto).
  apply yields_bind in Hy as ([txn |] & _ & Hy);
    apply yields_inv in Hy; simplify_eq; simpl; eauto.
Qed.

Lemma TxnEnd_keeps `{B : Build} (a : CDB.t) (b : bool) (a' : CDB.t) :
  yields (CDB.TxnCommit a) (b, a') ∨ yields (CDB.TxnAbort a) (b, a') →
  txn_needs_handle a →
  txn_needs_handle a' ∧ CDB.pdb a' = CDB.pdb a ∧ CDB.strFile a' = CDB.strFile a.
Proof.
  unfold txn_needs_handle, CDB.TxnCommit, CDB.TxnAbort.
  intros Hy Ha. destruct a as [[db |] f [txn |] ro]; simpl in *;
    destruct Hy as [Hy | Hy]; apply yields_inv in Hy; simpl in Hy;
    try lazymatch type of Hy with
        | ex _ => destruct Hy as [ret Hy]; apply yields_inv in Hy
        end;
    simplify_eq; simpl; auto.
  all: split; [by intros [? [=]] | done].
Qed.

(** What a TxnBegin that returns leaves behind: on true the accessor had
    no transaction, holds one now, and would refuse a second TxnBegin; on
    false it is as it was. *)
Lemma TxnBegin_records `{B : Build} (bitdb : CDBEnv.t) (a a' : CDB.t) (b : bool) :
  yields (CDB.TxnBegin bitdb a) (b, a') →
  if b
  then CDB.activeTxn a = None ∧ is_Some (CDB.pdb a) ∧ is_Some (CDB.activeTxn a') ∧
       CDB.TxnBegin bitdb a' = Done (false, a')
  else a' = a.
Proof.
  unfold CDB.TxnBegin. intros Hy.
  destruct a as [[db |] f [txn |] ro]; simpl in *;
    try (apply yields_inv in Hy; by simplify_eq).
  apply yields_bind in Hy as ([txn' |] & _ & Hy);
    apply yields_inv in Hy; simplify_eq; simpl; eauto 10.
Qed.

(** What an open accessor without a transaction asks of the engine, and
    which transaction it keeps. *)
Lemma TxnBegin_asks `{B : Build} (bitdb : CDBEnv.t) (a : CDB.t) (e : DB_ENV) :
  CDBEnv.dbenv bitdb = Some e → is_Some (CDB.pdb a) → CDB.activeTxn a = None →
  ∃ k,
    CDB.TxnBegin bitdb a = Call (EnvTxnBegin e None DB_TXN_WRITE_NOSYNC) k ∧
    ∀ ret ptxn,
      k (ret, ptxn) =
        Done (match ptxn with
              | Some txn =>
                  if bool_decide (ret = 0)
                  then (true, {| CDB.pdb := CDB.pdb a; CDB.strFile := CDB.strFile a;
                                 CDB.activeTxn := Some txn;
                                 CDB.fReadOnly := CDB.fReadOnly a |})
                  else (false, a)
              | None => (false, a)
              end).
Proof.
  intros Henv [db Hdb] Htxn.
  unfold CDB.TxnBegin, CDBEnv.TxnBegin_default, CDBEnv.TxnBegin.
  rewrite Hdb, Htxn, Henv. simpl.
  eexists. split; [reflexivity |]. intros ret [txn |]; simpl; [| done].
  by destruct (bool_decide (ret = 0)).
Qed.

Lemma TxnEnd_clears `{B : Build} (a a' : CDB.t) (b : bool) :
  txn_needs_handle a →
  yields (CDB.TxnCommit a) (b, a') ∨ yields (CDB.TxnAbort a) (b, a') →
  CDB.activeTxn a' = None ∧ (b = true → is_Some (CDB.activeTxn a)).
Proof.
  unfold txn_needs_handle, CDB.TxnCommit, CDB.TxnAbort. intros Hwf Hy.
  destruct a as [p f [txn |] ro]; simpl in *.
  - destruct (Hwf ltac:(eauto)) as [db ->].
    destruct Hy as [Hy | Hy]; apply yields_inv in Hy as [ret Hy];
      apply yields_inv in Hy; simplify_eq; simpl; eauto.
  - destruct p as [db |], Hy as [Hy | Hy]; apply yields_inv in Hy;
      simplify_eq; simpl; split; done.
Qed.

(** C2. An accessor has one transaction pointer, and the three calls keep
    at most one transaction behind it.  TxnBegin returns false, changing
    nothing and calling nothing, when the pointer is set or the handle is
    null; otherwise, in an opened environment, it asks the engine for one
    transaction and, when the engine reports 0 and hands one out, returns
    true with exactly that transaction in the pointer, and false with the
    accessor unchanged on any other answer.  So after a TxnBegin that
    returned true the accessor had no transaction before, holds one now,
    and a second TxnBegin is refused without an engine call; after one that
    returned false the accessor is as it was.  TxnCommit and TxnAbort
    return false, changing nothing and calling nothing, when the pointer is
    null, and return true only when a transaction was active.  Whatever the
    engine answers to the commit or the abort, the call returns with the
    pointer null (and the result is whether the engine reported 0): on
    every accessor whose pointer is only set while it has a handle, which
    the three operations preserve, no transaction is active afterwards. *)
Theorem one_transaction_per_accessor `{B : Build} (bitdb : CDBEnv.t) (a : CDB.t) :
  txn_needs_handle a →
  (CDB.pdb a = None ∨ is_Some (CDB.activeTxn a) →
     CDB.TxnBegin bitdb a = Done (false, a)) ∧
  (CDB.activeTxn a = None →
     CDB.TxnCommit a = Done (false, a) ∧ CDB.TxnAbort a = Done (false, a)) ∧
  returns_only (λ r, CDB.activeTxn r.2 = None) (CDB.TxnCommit a) ∧
  returns_only (λ r, CDB.activeTxn r.2 = None) (CDB.TxnAbort a) ∧
  (∀ txn, CDB.activeTxn a = Some txn →
     (∃ k, CDB.TxnCommit a = Call (DbTxnCommit txn 0) k ∧
           ∀ ret, ∃ a', k ret = Done (bool_decide (ret = 0), a')) ∧
     (∃ k, CDB.TxnAbort a = Call (DbTxnAbort txn) k ∧
           ∀ ret, ∃ a', k ret = Done (bool_decide (ret = 0), a'))) ∧
  (∀ b a', yields (CDB.TxnBegin bitdb a) (b, a') ∨ yields (CDB.TxnCommit a) (b, a') ∨
           yields (CDB.TxnAbort a) (b, a') → txn_needs_handle a') ∧
  (∀ e, CDBEnv.dbenv bitdb = Some e → is_Some (CDB.pdb a) → CDB.activeTxn a = None →
     ∃ k,
       CDB.TxnBegin bitdb a = Call (EnvTxnBegin e None DB_TXN_WRITE_NOSYNC) k ∧
       ∀ ret ptxn,
         k (ret, ptxn) =
           Done (match ptxn with
                 | Some txn =>
                     if bool_decide (ret = 0)
                     then (true, {| CDB.pdb := CDB.pdb a; CDB.strFile := CDB.strFile a;
                                    CDB.activeTxn := Some txn;
                                    CDB.fReadOnly := CDB.fReadOnly a |})
                     else (false, a)
                 | None => (false, a)
                 end)) ∧
  (∀ a', yields (CDB.TxnBegin bitdb a) (true, a') →
     CDB.activeTxn a = None ∧ is_Some (CDB.pdb a) ∧ is_Some (CDB.activeTxn a') ∧
     CDB.TxnBegin bitdb a' = Done (false, a')) ∧
  (∀ a', yields (CDB.TxnBegin bitdb a) (false, a') → a' = a) ∧
  (∀ b a', yields (CDB.TxnCommit a) (b, a') ∨ yields (CDB.TxnAbort a) (b, a') →
     CDB.activeTxn a' = None ∧ (b = true → is_Some (CDB.activeTxn a))).
Proof.
  intros Hwf. split_and!.
  - unfold CDB.TxnBegin. intros [-> | [txn ->]]; [done |].
    by rewrite orb_true_r.
  - unfold CDB.TxnCommit, CDB.TxnAbort. intros ->. by destruct (CDB.pdb a).
  - unfold CDB.TxnCommit. destruct (CDB.activeTxn a) as [txn |] eqn:Ht.
    + destruct (Hwf ltac:(eauto)) as [db ->]. by intros ret.
    + by destruct (CDB.pdb a).
  - unfold CDB.TxnAbort. destruct (CDB.activeTxn a) as [txn |] eqn:Ht.
    + destruct (Hwf ltac:(eauto)) as [db ->]. by intros ret.
    + by destruct (CDB.pdb a).
  - intros txn Ht. unfold CDB.TxnCommit, CDB.TxnAbort. rewrite Ht.
    destruct (Hwf ltac:(eauto)) as [db ->]. eauto 10.
  - intros b a' [Hy | Hy].
    + by eapply TxnBegin_keeps.
    + by eapply TxnEnd_keeps.
  - intros e. apply TxnBegin_asks.
  - intros a' Hy. exact (TxnBegin_records bitdb a a' true Hy).
  - intros a' Hy. exact (TxnBegin_records bitdb a a' false Hy).
  - intros b a'. by apply TxnEnd_clears.
Qed.

(** The theorem at work on an accessor in the middle of a transaction
    (a second begin is refused, the commit reaches the engine and clears
    the pointer) and on one about to begin (the engine's transaction is the
    one kept, and a further begin is then refused). *)
Lemma one_transaction_per_accessor_witness :
  let B := sample_build false in
  let busy := sample_active_accessor in
  let idle := sample_accessor false in
  txn_needs_handle busy ∧ txn_needs_handle idle ∧
  CDB.TxnBegin sample_env busy = Done (false, busy) ∧
  (∃ k, CDB.TxnCommit busy = Call (DbTxnCommit 5%positive 0) k ∧
        ∀ ret, ∃ a', k ret = Done (bool_decide (ret = 0), a')) ∧
  returns_only (λ r, CDB.activeTxn r.2 = None) (CDB.TxnCommit busy) ∧
  (∃ k, CDB.TxnBegin sample_env idle
          = Call (EnvTxnBegin 1%positive None DB_TXN_WRITE_NOSYNC) k ∧
        k (0, Some 9%positive) = Done (true, sample_txn_accessor 9%positive)) ∧
  CDB.TxnBegin sample_env (sample_txn_accessor 9%positive)
    = Done (false, sample_txn_accessor 9%positive).
Proof.
  intros B busy idle.
  assert (Hbusy : txn_needs_handle busy) by (intros _; by eexists).
  assert (Hidle : txn_needs_handle idle) by (intros [? Hnone]; discriminate Hnone).
  destruct (one_transaction_per_accessor sample_env busy Hbusy)
    as (Hrefuse & _ & Hclears & _ & Hcalls & _).
  destruct (one_transaction_per_accessor sample_env idle Hidle)
    as (_ & _ & _ & _ & _ & _ & Hasks & Hrecords & _).
  destruct (Hasks 1%positive eq_refl (ex_intro _ 1%positive eq_refl) eq_refl)
    as (k & Hk & Hanswer).
  assert (Hy : yields (CDB.TxnBegin sample_env idle) (true, sample_txn_accessor 9%positive)).
  { rewrite Hk. apply (yields_call _ _ (0, Some 9%positive)).
    rewrite Hanswer. apply yields_done. }
  split_and!.
  - exact Hbusy.
  - exact Hidle.
  - apply Hrefuse. right. by eexists.
  - exact (proj1 (Hcalls 5%positive eq_refl)).
  - exact Hclears.
  - exists k. split; [exact Hk | apply Hanswer].
  - exact (proj2 (proj2 (proj2 (Hrecords _ Hy)))).
Defined.

(** ** Read *)

(** C4. Read never stops the process and never lets an exception out: on
    every execution it returns.  On an open accessor it asks the engine for
    the encoded key with an empty value buffer, and it returns false when
    the engine leaves the value pointer null (the caller's value is then
    untouched), whenever the engine reports [DB_NOTFOUND], and when the
    bytes received do not decode; a decode failure and a missing record
    look the same to the caller. *)
Theorem read_absent_on_miss_or_decode_failure `{B : Build} {K T}
    `{SK : Serializable K} `{SV : Serializable T} (a : CDB.t) (key : K) (value : T) :
  returns_only (λ _, True) (CDB.Read a key value) ∧
  ∀ db, CDB.pdb a = Some db →
    ∃ dk dv k,
      CDB.Read a key value = Call (DbGet db (CDB.activeTxn a) dk dv 0) k ∧
      data dk = Some (Serialize SER_DISK CLIENT_VERSION key) ∧
      data dv = None ∧
      ∀ ret dv',
        (data dv' = None → k (ret, dv') = Done (false, value)) ∧
        (ret = DB_NOTFOUND → ∃ v', k (ret, dv') = Done (false, v')) ∧
        (∀ buf partial,
           data dv' = Some buf →
           Unserialize SER_DISK CLIENT_VERSION buf value = Threw partial →
           k (ret, dv') = Done (false, partial)).
Proof.
  unfold CDB.Read, stream_in. split.
  - destruct (CDB.pdb a) as [db |]; [| done].
    intros [ret dv']. simpl. destruct (data dv') as [buf |]; [| done].
    by destruct (Unserialize _ _ buf value).
  - intros db ->. eexists _, _, _. split_and!; [reflexivity.. |].
    intros ret dv'. split_and!.
    + by intros ->.
    + intros ->. pose proof DB_NOTFOUND_negative.
      destruct (data dv') as [buf |]; [| eauto]. simpl.
      destruct (Unserialize _ _ buf value); [| eauto].
      rewrite bool_decide_eq_false_2 by lia. eauto.
    + intros buf partial -> Hthrow. simpl. by rewrite Hthrow.
Qed.

(** ** ReadAtCursor *)

(** What ReadAtCursor is, on a valid cursor: one cursor get, whose key and
    value arguments point at the caller's buffers for the seek flags only,
    then a three-way split on the answer. *)
Lemma ReadAtCursor_unfold `{B : Build} (c : DBC) (ssKey ssValue : CDataStream) (fFlags : Z) :
  ∃ dk dv k,
    CDB.ReadAtCursor (Some c) ssKey ssValue fFlags = Call (DbcGet c dk dv fFlags) k ∧
    data dk = (if CDB.seeks_key fFlags then Some (vch ssKey) else None) ∧
    data dv = (if CDB.seeks_value fFlags then Some (vch ssValue) else None) ∧
    ∀ ret dk' dv',
      (ret ≠ 0 → k (ret, dk', dv') = Done (ret, ssKey, ssValue)) ∧
      (ret = 0 → data dk' = None ∨ data dv' = None →
         k (ret, dk', dv') = Done (99999, ssKey, ssValue)) ∧
      (ret = 0 → ∀ kb vb, data dk' = Some kb → data dv' = Some vb →
         k (ret, dk', dv') =
           Done (0, mkStream kb SER_DISK (nVersion ssKey),
                    mkStream vb SER_DISK (nVersion ssValue))).
Proof.
  unfold CDB.ReadAtCursor. eexists _, _, _. split_and!; [reflexivity | | |].
  - by destruct (CDB.seeks_key fFlags).
  - by destruct (CDB.seeks_value fFlags).
  - intros ret dk' dv'. simpl. split_and!.
    + intros Hret. by rewrite bool_decide_eq_false_2.
    + intros -> Hnull. simpl.
      destruct (data dk'), (data dv'); destruct Hnull; done.
    + by intros -> kb vb -> ->.
Qed.

Lemma seeks_key_iff `{B : Build} (fFlags : Z) :
  CDB.seeks_key fFlags = true ↔
  fFlags = DB_SET ∨ fFlags = DB_SET_RANGE ∨ fFlags = DB_GET_BOTH ∨ fFlags = DB_GET_BOTH_RANGE.
Proof.
  unfold CDB.seeks_key. rewrite !orb_true_iff, !bool_decide_eq_true. tauto.
Qed.

Lemma seeks_value_iff `{B : Build} (fFlags : Z) :
  CDB.seeks_value fFlags = true ↔ fFlags = DB_GET_BOTH ∨ fFlags = DB_GET_BOTH_RANGE.
Proof.
  unfold CDB.seeks_value. rewrite !orb_true_iff, !bool_decide_eq_true. tauto.
Qed.

Lemma DB_NEXT_seeks_nothing `{B : Build} :
  CDB.seeks_key DB_NEXT = false ∧ CDB.seeks_value DB_NEXT = false.
Proof.
  destruct DB_NEXT_not_seek as (? & ? & ? & ?).
  split; apply not_true_is_false.
  - rewrite seeks_key_iff. tauto.
  - rewrite seeks_value_iff. tauto.
Qed.

(** C7, as the specification states it, fails in its last part: when the
    engine reports status 0 and leaves the key pointer null, the value
    returned is 99999, not the engine's status, and the buffers are not
    overwritten. *)
Lemma cursor_raw_status_counterexample :
  ∃ dk dv k,
    CDB.ReadAtCursor (B := sample_build false) (Some 1%positive)
        (sample_stream []) (sample_stream []) 16
      = Call (DbcGet 1%positive dk dv 16) k ∧
    k (0, DBT_zero, mkDBT (Some ["v"%byte]) 0)
      = Done (99999, sample_stream [], sample_stream []) ∧
    99999 ≠ 0.
Proof. eexists _, _, _. split_and!; [reflexivity | reflexivity | discriminate]. Qed.

(** C7, amended.  ReadAtCursor hands the caller's key buffer to the engine
    as the seek target exactly for [DB_SET], [DB_SET_RANGE], [DB_GET_BOTH]
    and [DB_GET_BOTH_RANGE], and the value buffer exactly for the two
    get-both flags; for [DB_NEXT] it hands over neither.  A non-zero engine
    status is returned as it is, buffers untouched.  On status 0 with both
    data pointers set it returns 0 and both buffers hold the retrieved
    record, retagged [SER_DISK]; on status 0 with a null data pointer it
    returns 99999. *)
Theorem cursor_seek_targets_and_status `{B : Build} (c : DBC)
    (ssKey ssValue : CDataStream) (fFlags : Z) :
  ∃ dk dv k,
    CDB.ReadAtCursor (Some c) ssKey ssValue fFlags = Call (DbcGet c dk dv fFlags) k ∧
    (data dk = Some (vch ssKey) ∨ data dk = None) ∧
    (data dk = Some (vch ssKey) ↔
       fFlags = DB_SET ∨ fFlags = DB_SET_RANGE ∨
       fFlags = DB_GET_BOTH ∨ fFlags = DB_GET_BOTH_RANGE) ∧
    (data dv = Some (vch ssValue) ∨ data dv = None) ∧
    (data dv = Some (vch ssValue) ↔
       fFlags = DB_GET_BOTH ∨ fFlags = DB_GET_BOTH_RANGE) ∧
    (fFlags = DB_NEXT → data dk = None ∧ data dv = None) ∧
    ∀ ret dk' dv',
      (ret ≠ 0 → k (ret, dk', dv') = Done (ret, ssKey, ssValue)) ∧
      (ret = 0 → ∀ kb vb, data dk' = Some kb → data dv' = Some vb →
         k (ret, dk', dv') =
           Done (0, mkStream kb SER_DISK (nVersion ssKey),
                    mkStream vb SER_DISK (nVersion ssValue))) ∧
      (ret = 0 → data dk' = None ∨ data dv' = None →
         k (ret, dk', dv') = Done (99999, ssKey, ssValue)).
Proof.
  destruct (ReadAtCursor_unfold c ssKey ssValue fFlags)
    as (dk & dv & k & Heq & Hdk & Hdv & Hk).
  exists dk, dv, k. rewrite Hdk, Hdv, <- seeks_key_iff, <- seeks_value_iff.
  split_and!; [done | | | | | |].
  - destruct (CDB.seeks_key fFlags); auto.
  - by destruct (CDB.seeks_key fFlags).
  - destruct (CDB.seeks_value fFlags); auto.
  - by destruct (CDB.seeks_value fFlags).
  - intros ->. destruct DB_NEXT_seeks_nothing as [-> ->]. done.
  - intros ret dk' dv'. destruct (Hk ret dk' dv') as (? & ? & ?). done.
Qed.

(** C10. When the cursor get reports status 0 but leaves the key or the
    value pointer null, ReadAtCursor returns 99999 and hands both buffers
    back as it received them; the buffers are replaced only on status 0
    with both pointers set.  99999 is neither the success status nor
    [DB_NOTFOUND]: it is positive, where the engine's own error returns are
    negative. *)
Theorem cursor_null_data_sentinel `{B : Build} (c : DBC)
    (ssKey ssValue : CDataStream) (fFlags : Z) :
  ∃ dk dv k,
    CDB.ReadAtCursor (Some c) ssKey ssValue fFlags = Call (DbcGet c dk dv fFlags) k ∧
    (∀ dk' dv', data dk' = None ∨ data dv' = None →
       k (0, dk', dv') = Done (99999, ssKey, ssValue)) ∧
    (∀ ret dk' dv' r ssKey' ssValue',
       k (ret, dk', dv') = Done (r, ssKey', ssValue') →
       (ssKey', ssValue') ≠ (ssKey, ssValue) →
       ret = 0 ∧ r = 0 ∧ is_Some (data dk') ∧ is_Some (data dv')) ∧
    99999 ≠ 0 ∧ 99999 ≠ DB_NOTFOUND ∧ DB_NOTFOUND < 0 < 99999.
Proof.
  destruct (ReadAtCursor_unfold c ssKey ssValue fFlags)
    as (dk & dv & k & Heq & _ & _ & Hk).
  pose proof DB_NOTFOUND_negative.
  exists dk, dv, k. split_and!; [done | | | lia..].
  - intros dk' dv' Hnull. by apply Hk.
  - intros ret dk' dv' r ssKey' ssValue' Hret Hchanged.
    destruct (Hk ret dk' dv') as (Herr & Hnull & Hok).
    destruct (decide (ret = 0)) as [-> | Hne].
    + destruct (data dk') as [kb |] eqn:Hkb, (data dv') as [vb |] eqn:Hvb;
        [ | rewrite Hnull in Hret by auto; by simplify_eq.. ].
      rewrite (Hok eq_refl kb vb) in Hret by done. simplify_eq. eauto.
    + rewrite Herr in Hret by done. by simplify_eq.
Qed.

(** ** Record operations on a lawful engine *)

#[global] Instance MapEngine_lawful `{B : Build} : KvEngine MapEngine.engine.
Proof.
  refine {| view st db _ := MapEngine.content st db |}.
  - intros st db txn kb kf dv ret dv' st'. simpl.
    destruct (MapEngine.content st db !! kb) as [vb |]; intros [= <- <- <-]; done.
  - intros st db txn kb kf vb vf fl ret st'. simpl. case_bool_decide.
    + intros [= <- <-]. right. pose proof DB_NOTFOUND_negative. split; [lia | done].
    + intros [= <- <-]. left. split; [done |].
      unfold MapEngine.content at 1, MapEngine.store. simpl.
      by rewrite lookup_insert_eq.
  - intros st db txn kb kf ret st'. simpl.
    destruct (MapEngine.content st db !! kb) as [vb |]; intros [= <- <-]; [| done].
    split; [done |]. unfold MapEngine.content at 1, MapEngine.store. simpl.
    by rewrite lookup_insert_eq.
  - intros st db txn kb kf ret st'. simpl.
    destruct (MapEngine.content st db !! kb) as [vb |] eqn:Hkb; intros [= <- <-].
    + split; [done |]. split; eauto.
    + split; [done |]. pose proof DB_NOTFOUND_negative.
      split; [lia | by intros [? [=]]].
Defined.

Section Lawful.
Context `{B : Build} `{E : Engine} `{!KvEngine E}.

Lemma run_Read_law {K T} `{SK : Serializable K} `{SV : Serializable T}
    (a : CDB.t) (db : DB) (key : K) (value : T) (st st' : St) r :
  CDB.pdb a = Some db →
  run (CDB.Read a key value) st = (r, st') →
  view st' db (CDB.activeTxn a) = view st db (CDB.activeTxn a) ∧
  match view st db (CDB.activeTxn a) !! encoded key with
  | Some vb =>
      match Unserialize SER_DISK CLIENT_VERSION vb value with
      | Parsed v => r = Returned (true, v)
      | Threw partial => r = Returned (false, partial)
      end
  | None => r = Returned (false, value)
  end.
Proof.
  intros Hdb. unfold CDB.Read, stream_in, encoded. rewrite Hdb. simpl.
  destruct (answer _ st) as [[ret dv'] st1] eqn:Hans.
  apply get_law in Hans as [Hview Hans]. intros Hrun.
  destruct (view st db (CDB.activeTxn a) !! _) as [vb |].
  - destruct Hans as [-> Hdata]. rewrite Hdata in Hrun. simpl in Hrun.
    destruct (Unserialize _ _ vb value); simpl in Hrun; simplify_eq; done.
  - destruct Hans as [_ Hdata]. rewrite Hdata in Hrun. simpl in Hrun. by simplify_eq.
Qed.

Lemma run_Write_law {K T} `{SK : Serializable K} `{SV : Serializable T}
    (a : CDB.t) (db : DB) (key : K) (value : T) (ow : bool) (st st' : St) r :
  CDB.pdb a = Some db →
  run (CDB.Write a key value ow) st = (r, st') →
  (r = Returned true ∧
   view st' db (CDB.activeTxn a)
     = <[encoded key:=encoded value]> (view st db (CDB.activeTxn a))) ∨
  (r ≠ Returned true ∧ view st' db (CDB.activeTxn a) = view st db (CDB.activeTxn a)).
Proof.
  intros Hdb. unfold CDB.Write, c_assert, encoded. rewrite Hdb.
  destruct (CDB.fReadOnly a), NDEBUG; simpl;
    try (intros [= <- <-]; by right).
  all: destruct (answer _ st) as [ret st1] eqn:Hans;
    apply put_law in Hans as [[-> Hview] | [Hret Hview]]; intros [= <- <-];
    [left; by split | right; split; [| done]];
    rewrite bool_decide_eq_false_2 by done; done.
Qed.

Lemma run_Erase_law {K} `{SK : Serializable K}
    (a : CDB.t) (db : DB) (key : K) (st st' : St) r :
  CDB.pdb a = Some db →
  run (CDB.Erase a key) st = (r, st') →
  (r = Returned true ∧
   view st' db (CDB.activeTxn a) = delete (encoded key) (view st db (CDB.activeTxn a))) ∨
  ((∃ msg, r = Stopped (AssertionFailed msg)) ∧ CDB.fReadOnly a = true ∧
   NDEBUG = false ∧ st' = st).
Proof.
  intros Hdb. unfold CDB.Erase, c_assert, encoded. rewrite Hdb.
  destruct (CDB.fReadOnly a), NDEBUG; simpl;
    try (intros [= <- <-]; right; by eauto).
  all: destruct (answer _ st) as [ret st1] eqn:Hans;
    apply del_law in Hans; intros [= <- <-]; left;
    destruct (view st db (CDB.activeTxn a) !! _) eqn:Hkb;
    destruct Hans as [-> ->]; simpl; [done |];
    rewrite (bool_decide_eq_true_2 (DB_NOTFOUND = DB_NOTFOUND)) by done;
    rewrite orb_true_r, delete_id by done; done.
Qed.

Lemma run_Exists_law {K} `{SK : Serializable K}
    (a : CDB.t) (db : DB) (key : K) (st st' : St) r :
  CDB.pdb a = Some db →
  run (CDB.Exists a key) st = (r, st') →
  view st' db (CDB.activeTxn a) = view st db (CDB.activeTxn a) ∧
  r = Returned (bool_decide (is_Some (view st db (CDB.activeTxn a) !! encoded key))).
Proof.
  intros Hdb. unfold CDB.Exists, encoded. rewrite Hdb. simpl.
  destruct (answer _ st) as [ret st1] eqn:Hans.
  apply exists_law in Hans as [Hview Hret]. intros [= <- <-].
  split; [done |]. f_equal. apply bool_decide_ext. done.
Qed.

(** An operation at another key leaves the record at [kb] alone. *)
Lemma run_op_other (a : CDB.t) (db : DB) (o : op) (kb : bytes) (st st' : St) r :
  CDB.pdb a = Some db →
  op_key o ≠ kb →
  run_op a o st = (r, st') →
  view st' db (CDB.activeTxn a) !! kb = view st db (CDB.activeTxn a) !! kb.
Proof.
  intros Hdb Hne. destruct o; simpl in *.
  - destruct (run _ st) as [r1 st1] eqn:Hrun. intros [= <- <-].
    by destruct (run_Read_law a db _ _ _ _ _ Hdb Hrun) as [-> _].
  - destruct (run _ st) as [r1 st1] eqn:Hrun. intros [= <- <-].
    destruct (run_Write_law a db _ _ _ _ _ _ Hdb Hrun) as [[_ ->] | [_ ->]]; [| done].
    by rewrite lookup_insert_ne.
  - destruct (run _ st) as [r1 st1] eqn:Hrun. intros [= <- <-].
    destruct (run_Erase_law a db _ _ _ _ Hdb Hrun) as [[_ ->] | (_ & _ & _ & ->)];
      [| done].
    by rewrite lookup_delete_ne.
  - destruct (run _ st) as [r1 st1] eqn:Hrun. intros [= <- <-].
    by destruct (run_Exists_law a db _ _ _ _ Hdb Hrun) as [-> _].
Qed.

Lemma run_ops_other (a : CDB.t) (db : DB) (ops : list op) (kb : bytes) (st st' : St) r :
  CDB.pdb a = Some db →
  Forall (λ o, op_key o ≠ kb) ops →
  run_ops a ops st = (r, st') →
  view st' db (CDB.activeTxn a) !! kb = view st db (CDB.activeTxn a) !! kb.
Proof.
  intros Hdb Hops. revert st.
  induction Hops as [| o ops Ho Hops IH]; intros st; simpl.
  - by intros [= _ <-].
  - destruct (run_op a o st) as [[[] | why] st1] eqn:Hop.
    + intros Hrun. rewrite (IH _ Hrun). by eapply run_op_other.
    + intros [= _ <-]. by eapply run_op_other.
Qed.

(** C3. On an open, writable accessor Erase issues one engine delete
    of the encoded key and returns true exactly when the engine reports
    0 or [DB_NOTFOUND]; false is left for every other status, the
    engine's errors.  On a lawful engine it therefore returns true
    whether or not the record was there, the record is gone afterwards,
    and a second Erase of the same key returns true again and leaves the
    content as the first one left it. *)
Theorem erase_idempotent {K} `{SK : Serializable K}
    (a : CDB.t) (db : DB) (key : K) (st : St) :
  CDB.pdb a = Some db →
  CDB.fReadOnly a = false →
  (∃ dk k,
     CDB.Erase a key = Call (DbDel db (CDB.activeTxn a) dk 0) k ∧
     data dk = Some (encoded key) ∧
     ∀ ret,
       (ret = 0 ∨ ret = DB_NOTFOUND → k ret = Done true) ∧
       (ret ≠ 0 → ret ≠ DB_NOTFOUND → k ret = Done false)) ∧
  (∀ r1 st1 r2 st2,
     run (CDB.Erase a key) st = (r1, st1) →
     run (CDB.Erase a key) st1 = (r2, st2) →
     r1 = Returned true ∧ r2 = Returned true ∧
     view st1 db (CDB.activeTxn a) = delete (encoded key) (view st db (CDB.activeTxn a)) ∧
     view st1 db (CDB.activeTxn a) !! encoded key = None ∧
     view st2 db (CDB.activeTxn a) = view st1 db (CDB.activeTxn a)).
Proof.
  intros Hdb Hrw. split.
  - unfold CDB.Erase. rewrite Hdb, Hrw. simpl. eexists _, _.
    split_and!; [reflexivity | reflexivity |]. intros ret. split.
    + intros [-> | ->]; [done |].
      by rewrite (bool_decide_eq_true_2 (DB_NOTFOUND = DB_NOTFOUND)), orb_true_r.
    + intros H0 Hnf. by rewrite !bool_decide_eq_false_2.
  - intros r1 st1 r2 st2 Hrun1 Hrun2.
    destruct (run_Erase_law a db key _ _ _ Hdb Hrun1) as [[-> Hv1] | (_ & Hro & _)];
      [| congruence].
    destruct (run_Erase_law a db key _ _ _ Hdb Hrun2) as [[-> Hv2] | (_ & Hro & _)];
      [| congruence].
    rewrite Hv2, Hv1. split_and!; [done | done | done | |].
    + apply lookup_delete_eq.
    + apply delete_id, lookup_delete_eq.
Qed.

(** C6. On a lawful engine, once Write of a key and a value that
    round-trips through its codec has returned true, and any sequence
    of Read, Write, Erase and Exists calls at keys with another encoding
    has run on the same accessor, Read of the key returns true and
    delivers the written value. *)
Theorem write_then_read {K T} `{SK : Serializable K} `{SV : Serializable T}
    (a : CDB.t) (key : K) (value old : T) (fOverwrite : bool) (ops : list op)
    (st st1 st2 : St) :
  roundtrips value →
  Forall (λ o, op_key o ≠ encoded key) ops →
  run (CDB.Write a key value fOverwrite) st = (Returned true, st1) →
  run_ops a ops st1 = (Returned tt, st2) →
  (run (CDB.Read a key old) st2).1 = Returned (true, value).
Proof.
  intros Hrt Hops Hwrite Hrun.
  destruct (CDB.pdb a) as [db |] eqn:Hdb;
    [| unfold CDB.Write in Hwrite; rewrite Hdb in Hwrite; by simplify_eq].
  destruct (run_Write_law a db key value _ _ _ _ Hdb Hwrite) as [[_ Hv1] | [? _]];
    [| done].
  apply (run_ops_other a db _ (encoded key)) in Hrun; [| done | done].
  rewrite Hv1, lookup_insert_eq in Hrun.
  destruct (run (CDB.Read a key old) st2) as [r st3] eqn:Hread.
  apply (run_Read_law a db) in Hread as [_ Hread]; [| done].
  rewrite Hrun in Hread. unfold roundtrips, stream_in in Hrt.
  cbn [vch nType nVersion] in Hrt. by rewrite (Hrt old) in Hread.
Qed.

End Lawful.

(** Keys that round-trip and differ have different encodings. *)
Lemma roundtrips_encoded_inj `{B : Build} {K} `{SK : Serializable K} (k1 k2 : K) :
  roundtrips k1 → roundtrips k2 → encoded k1 = encoded k2 → k1 = k2.
Proof.
  intros H1 H2 Heq. specialize (H1 k1). specialize (H2 k1).
  rewrite Heq in H1. congruence.
Qed.

Lemma erase_idempotent_witness :
  let B := sample_build false in
  let a := sample_accessor false in
  CDB.pdb a = Some 1%positive ∧ CDB.fReadOnly a = false ∧
  ∀ r1 st1 r2 st2,
    run (E := MapEngine.engine) (CDB.Erase a "k"%byte) MapEngine.empty = (r1, st1) →
    run (E := MapEngine.engine) (CDB.Erase a "k"%byte) st1 = (r2, st2) →
    r1 = Returned true ∧ r2 = Returned true.
Proof.
  intros B a. split; [reflexivity | split; [reflexivity |]].
  intros r1 st1 r2 st2 H1 H2.
  destruct (erase_idempotent (E := MapEngine.engine)
              (sample_accessor false) 1%positive "k"%byte MapEngine.empty
              eq_refl eq_refl) as [_ Hrun].
  destruct (Hrun r1 st1 r2 st2 H1 H2) as (? & ? & _). by split.
Defined.

Lemma write_then_read_witness :
  let B := sample_build false in
  let a := sample_accessor false in
  let ops := [OpWrite "a"%byte "x"%byte true; OpRead "a"%byte "y"%byte;
              OpErase "b"%byte; OpExists "a"%byte] in
  ∃ st1 st2,
    roundtrips "v"%byte ∧
    Forall (λ o, op_key o ≠ encoded "k"%byte) ops ∧
    run (E := MapEngine.engine) (CDB.Write a "k"%byte "v"%byte true) MapEngine.empty
      = (Returned true, st1) ∧
    run_ops a ops st1 = (Returned tt, st2) ∧
    (run (CDB.Read a "k"%byte "z"%byte) st2).1 = Returned (true, "v"%byte).
Proof.
  intros B a ops.
  assert (Hrt : roundtrips "v"%byte) by (intros old; reflexivity).
  assert (Hops : Forall (λ o, op_key o ≠ encoded "k"%byte) ops)
    by (repeat constructor; discriminate).
  destruct (run (E := MapEngine.engine) (CDB.Write a "k"%byte "v"%byte true)
              MapEngine.empty) as [r1 st1] eqn:Hw.
  assert (Hr1 : r1 = Returned true) by (vm_compute in Hw; congruence).
  subst r1.
  destruct (run_ops a ops st1) as [r2 st2] eqn:Ho.
  assert (Hr2 : r2 = Returned tt).
  { vm_compute in Hw. injection Hw as <-. vm_compute in Ho. congruence. }
  subst r2.
  exists st1, st2. split_and!; [done | done | done | done |].
  exact (write_then_read (E := MapEngine.engine) a "k"%byte "v"%byte "z"%byte true
           ops MapEngine.empty st1 st2 Hrt Hops Hw Ho).
Defined.

(** ** Reference counts of open files *)

Section RegistryFacts.
Import Registry.
Context `{B : Build}.

Lemma OpenFile_yields (env env' : CDBEnv.t) (F : string) (ph : option DB) :
  yields (OpenFile env F) (ph, env') →
  (ph = None ∧ env' = env) ∨
  (∃ h, ph = Some h ∧ CDBEnv.mapDb env !! F = Some h ∧
        env' = with_maps env (<[F:=use_count env F + 1]> (CDBEnv.mapFileUseCount env))
                         (CDBEnv.mapDb env)) ∨
  (∃ h, ph = Some h ∧ CDBEnv.mapDb env !! F = None ∧
        env' = with_maps env (<[F:=1]> (CDBEnv.mapFileUseCount env))
                         (<[F:=h]> (CDBEnv.mapDb env))).
Proof.
  unfold OpenFile. intros Hy.
  destruct (CDBEnv.dbenv env) as [e |];
    [| apply yields_inv in Hy; simplify_eq; by left].
  destruct (CDBEnv.mapDb env !! F) as [h |] eqn:HF.
  - apply yields_inv in Hy. simplify_eq. right; left. eauto.
  - apply yields_inv in Hy as [[ret [h |]] Hy]; simpl in Hy.
    + case_bool_decide; apply yields_inv in Hy; simplify_eq;
        [right; right; eauto | by left].
    + apply yields_inv in Hy. simplify_eq. by left.
Qed.

Lemma CloseFile_yields (env env' : CDBEnv.t) (F : string) :
  yields (CloseFile env F) env' →
  match CDBEnv.mapFileUseCount env !! F with
  | None => env' = env
  | Some n =>
      if bool_decide (n - 1 = 0)
      then env' = with_maps env (delete F (CDBEnv.mapFileUseCount env))
                            (delete F (CDBEnv.mapDb env))
      else env' = with_maps env (<[F:=n - 1]> (CDBEnv.mapFileUseCount env))
                            (CDBEnv.mapDb env)
  end.
Proof.
  unfold CloseFile. intros Hy.
  destruct (CDBEnv.mapFileUseCount env !! F) as [n |];
    [| apply yields_inv in Hy; by simplify_eq].
  case_bool_decide; [| apply yields_inv in Hy; by simplify_eq].
  destruct (CDBEnv.mapDb env !! F) as [h |];
    [| apply yields_inv in Hy; by simplify_eq].
  destruct (CDBEnv.IsMock env); apply yields_inv in Hy;
    [by simplify_eq |].
  destruct Hy as [ret Hy]. apply yields_inv in Hy. by simplify_eq.
Qed.

Lemma Close_yields (env env' : CDBEnv.t) (a a' : CDB.t) :
  yields (Close env a) (a', env') →
  match CDB.pdb a with
  | None => env' = env
  | Some _ => yields (CloseFile env (CDB.strFile a)) env'
  end.
Proof.
  unfold Close. intros Hy. destruct (CDB.pdb a) as [db |];
    [| apply yields_inv in Hy; by simplify_eq].
  apply yields_bind in Hy as ([] & _ & Hy).
  apply yields_bind in Hy as (env1 & Hclose & Hy).
  apply yields_inv in Hy. by simplify_eq.
Qed.

Lemma Txn_keeps_file (bitdb : CDBEnv.t) (a a' : CDB.t) (b : bool) :
  yields (CDB.TxnBegin bitdb a) (b, a') ∨ yields (CDB.TxnCommit a) (b, a') ∨
  yields (CDB.TxnAbort a) (b, a') →
  ∀ F, holds F a' = holds F a.
Proof.
  intros Hy F.
  enough (CDB.pdb a' = CDB.pdb a ∧ CDB.strFile a' = CDB.strFile a) as [Hp Hf]
    by (unfold holds; by rewrite Hp, Hf).
  unfold CDB.TxnBegin, CDB.TxnCommit, CDB.TxnAbort in Hy.
  destruct a as [[db |] f [txn |] ro]; simpl in *;
    destruct Hy as [Hy | [Hy | Hy]];
    try (apply yields_bind in Hy as ([txn' |] & _ & Hy));
    apply yields_inv in Hy; simpl in Hy;
    try lazymatch type of Hy with
        | ex _ => destruct Hy as [ret Hy]; apply yields_inv in Hy
        end;
    by simplify_eq.
Qed.

Lemma count_holds_cons (F : string) (a : CDB.t) (l : list CDB.t) :
  count_holds F (a :: l) = ((if holds F a then 1 else 0) + count_holds F l)%nat.
Proof.
  unfold count_holds. rewrite filter_cons.
  destruct (holds F a); by case_decide.
Qed.

Lemma count_holds_delete (F : string) (l : list CDB.t) (i : nat) (a : CDB.t) :
  l !! i = Some a →
  count_holds F l = ((if holds F a then 1 else 0) + count_holds F (delete i l))%nat.
Proof.
  revert i. induction l as [| x l IH]; intros [| i] Hi; simplify_eq/=.
  - apply count_holds_cons.
  - rewrite !count_holds_cons, (IH i Hi). lia.
Qed.

Lemma count_holds_insert (F : string) (l : list CDB.t) (i : nat) (a a' : CDB.t) :
  l !! i = Some a → holds F a' = holds F a →
  count_holds F (<[i:=a']> l) = count_holds F l.
Proof.
  revert i. induction l as [| x l IH]; intros [| i] Hi Hh; simplify_eq/=.
  - by rewrite !count_holds_cons, Hh.
  - by rewrite !count_holds_cons, (IH i Hi Hh).
Qed.

Lemma holds_inv (F : string) (a : CDB.t) :
  holds F a = true ↔ CDB.strFile a = F ∧ is_Some (CDB.pdb a).
Proof. unfold holds. by rewrite andb_true_iff, !bool_decide_eq_true. Qed.

Lemma holds_no_handle (F : string) (a : CDB.t) :
  CDB.pdb a = None → holds F a = false.
Proof.
  intros Hp. apply not_true_is_false. rewrite holds_inv, Hp. by intros [_ [? [=]]].
Qed.

Lemma holds_other_file (F : string) (a : CDB.t) :
  CDB.strFile a ≠ F → holds F a = false.
Proof. intros Hf. apply not_true_is_false. rewrite holds_inv. tauto. Qed.

Lemma construct_consistent (s : sys) (F : string) (ro : bool) (a : CDB.t)
    (env' : CDBEnv.t) :
  consistent s →
  yields (CDB_open (bitdb s) F ro) (a, env') →
  consistent {| bitdb := env'; live := a :: live s |}.
Proof.
  intros [Hpos Hsame Hlive] Hy. unfold CDB_open in Hy.
  apply yields_bind in Hy as ([ph env1] & Hopen & Hy).
  apply yields_inv in Hy. simplify_eq.
  unfold opened, use_count in *.
  apply OpenFile_yields in Hopen
    as [[-> ->] | [(h & -> & Hdb & ->) | (h & -> & Hdb & ->)]].
  - split; unfold opened, use_count; simpl; [done | done |]. intros F'.
    rewrite count_holds_cons, holds_no_handle by done. apply Hlive.
  - split; unfold opened, use_count; simpl.
    + intros F' n. rewrite lookup_insert. case_decide; [| apply Hpos].
      intros [= <-]. specialize (Hlive F). lia.
    + intros F'. rewrite lookup_insert. case_decide; [| apply Hsame].
      subst F'. rewrite Hdb. split; eauto.
    + intros F'. rewrite count_holds_cons, lookup_insert. case_decide.
      * subst F'. rewrite (proj2 (holds_inv F _)) by (simpl; eauto).
        simpl. specialize (Hlive F). lia.
      * rewrite holds_other_file by done. apply Hlive.
  - assert (CDBEnv.mapFileUseCount (bitdb s) !! F = None) as Hcnt.
    { apply eq_None_not_Some. rewrite <- Hsame, Hdb. by intros [? [=]]. }
    split; unfold opened, use_count; simpl.
    + intros F' n. rewrite lookup_insert. case_decide; [| apply Hpos].
      by intros [= <-].
    + intros F'. rewrite !lookup_insert. case_decide; [| apply Hsame].
      split; eauto.
    + intros F'. rewrite count_holds_cons, lookup_insert. case_decide.
      * subst F'. rewrite (proj2 (holds_inv F _)) by (simpl; eauto).
        simpl. specialize (Hlive F). rewrite Hcnt in Hlive. simpl in Hlive. lia.
      * rewrite holds_other_file by done. apply Hlive.
Qed.

Lemma destroy_consistent (s : sys) (i : nat) (a a' : CDB.t) (env' : CDBEnv.t) :
  consistent s →
  live s !! i = Some a →
  yields (Close (bitdb s) a) (a', env') →
  consistent {| bitdb := env'; live := delete i (live s) |}.
Proof.
  intros [Hpos Hsame Hlive] Hi Hy. apply Close_yields in Hy.
  unfold opened, use_count in *.
  assert (∀ F, count_holds F (live s)
               = ((if holds F a then 1 else 0) + count_holds F (delete i (live s)))%nat)
    as Hdel by (intros F; by apply count_holds_delete).
  destruct (CDB.pdb a) as [db |] eqn:Hp.
  - apply CloseFile_yields in Hy.
    assert (holds (CDB.strFile a) a = true) as Hholds
      by (apply holds_inv; rewrite Hp; eauto).
    pose proof (Hlive (CDB.strFile a)) as HF.
    rewrite (Hdel (CDB.strFile a)), Hholds in HF.
    destruct (CDBEnv.mapFileUseCount (bitdb s) !! CDB.strFile a) as [n |] eqn:Hcnt;
      simpl in HF; [| lia].
    case_bool_decide; subst env'; split; unfold opened, use_count; simpl.
    + intros F' m. rewrite lookup_delete. case_decide; [done | apply Hpos].
    + intros F'. rewrite !lookup_delete. case_decide; [| apply Hsame].
      split; by intros [? [=]].
    + intros F'. rewrite lookup_delete. case_decide.
      * subst F'. simpl. lia.
      * specialize (Hlive F'). rewrite Hdel, holds_other_file in Hlive by done.
        apply Hlive.
    + intros F' m. rewrite lookup_insert. case_decide; [| apply Hpos].
      intros [= <-]. lia.
    + intros F'. rewrite lookup_insert. case_decide; [| apply Hsame].
      subst F'. rewrite Hsame, Hcnt. split; eauto.
    + intros F'. rewrite lookup_insert. case_decide.
      * subst F'. simpl. lia.
      * specialize (Hlive F'). rewrite Hdel, holds_other_file in Hlive by done.
        apply Hlive.
  - subst env'. split; unfold opened, use_count; simpl; [done | done |]. intros F.
    specialize (Hlive F). by rewrite Hdel, holds_no_handle in Hlive.
Qed.

Lemma txn_consistent (s : sys) (i : nat) (a a' : CDB.t) :
  consistent s →
  live s !! i = Some a →
  (∀ F, holds F a' = holds F a) →
  consistent {| bitdb := bitdb s; live := <[i:=a']> (live s) |}.
Proof.
  intros [Hpos Hsame Hlive] Hi Hh. split; simpl; [done | done |].
  intros F. unfold opened. simpl.
  rewrite (count_holds_insert F _ i a a') by done. apply Hlive.
Qed.

Lemma step_consistent (s s' : sys) : consistent s → step s s' → consistent s'.
Proof.
  intros Hs Hstep.
  destruct Hstep as [s F ro a env' Hy | s i a a' env' Hi Hy
                    | s i a b a' Hi Hy | s i a b a' Hi Hy | s i a b a' Hi Hy].
  - by eapply construct_consistent.
  - by eapply destroy_consistent.
  - eapply txn_consistent; [done.. |]. intros F.
    apply (Txn_keeps_file (bitdb s) a a' b). auto.
  - eapply txn_consistent; [done.. |]. intros F.
    apply (Txn_keeps_file (bitdb s) a a' b). auto.
  - eapply txn_consistent; [done.. |]. intros F.
    apply (Txn_keeps_file (bitdb s) a a' b). auto.
Qed.

Lemma reachable_consistent (s : sys) : reachable s → consistent s.
Proof.
  induction 1 as [mock path e | s s' _ IH Hstep].
  - split; unfold opened, use_count; simpl; [by intros F n; rewrite lookup_empty | | done].
    intros F. rewrite !lookup_empty. done.
  - by eapply step_consistent.
Qed.

(** No reachable accessor has a transaction pointer without a handle. *)
Lemma reachable_txn_needs_handle (s : sys) :
  reachable s → Forall txn_needs_handle (live s).
Proof.
  induction 1 as [mock path e | s s' _ IH Hstep]; [by constructor |].
  destruct Hstep as [s F ro a env' Hy | s i a a' env' Hi Hy
                    | s i a b a' Hi Hy | s i a b a' Hi Hy | s i a b a' Hi Hy];
    simpl.
  - constructor; [| done]. unfold CDB_open in Hy.
    apply yields_bind in Hy as ([ph env1] & _ & Hy).
    apply yields_inv in Hy. simplify_eq. by intros [? [=]].
  - by apply Forall_delete.
  - apply Forall_insert; [done |].
    eapply TxnBegin_keeps; [| done]. by eapply Forall_lookup_1.
  - apply Forall_insert; [done |].
    eapply TxnEnd_keeps; [by left |]. by eapply Forall_lookup_1.
  - apply Forall_insert; [done |].
    eapply TxnEnd_keeps; [by right |]. by eapply Forall_lookup_1.
Qed.

(** C8. In every state the process can reach by constructing and
    destroying accessors and by running their transaction operations,
    for every file name F: F has an entry in the open-handle map exactly
    when its reference count is at least 1; the reference count is the
    number of live accessors that opened F successfully; and destroying
    the only such accessor leaves F in neither map. *)
Theorem use_count_counts_live_accessors (s : sys) (F : string) :
  reachable s →
  (is_Some (CDBEnv.mapDb (bitdb s) !! F) ↔ 1 ≤ use_count (bitdb s) F) ∧
  use_count (bitdb s) F = Z.of_nat (opened F s) ∧
  (∀ i a a' env',
     live s !! i = Some a → holds F a = true → opened F s = 1%nat →
     yields (Close (bitdb s) a) (a', env') →
     CDBEnv.mapDb env' !! F = None ∧ CDBEnv.mapFileUseCount env' !! F = None ∧
     opened F {| bitdb := env'; live := delete i (live s) |} = 0%nat).
Proof.
  intros Hreach. pose proof (reachable_consistent s Hreach) as Hs.
  destruct Hs as [Hpos Hsame Hlive]. split_and!.
  - rewrite Hsame. unfold use_count.
    destruct (CDBEnv.mapFileUseCount (bitdb s) !! F) as [n |] eqn:Hcnt; simpl.
    + split; [intros _; by eapply Hpos | eauto].
    + split; [by intros [? [=]] | lia].
  - apply Hlive.
  - intros i a a' env' Hi Hholds Hone Hy.
    pose proof (destroy_consistent s i a a' env' (Build_consistent _ Hpos Hsame Hlive) Hi Hy)
      as [Hpos' Hsame' Hlive'].
    simpl in *. specialize (Hlive' F).
    assert (opened F {| bitdb := env'; live := delete i (live s) |} = 0%nat) as Hzero.
    { unfold opened in *. simpl.
      rewrite (count_holds_delete F _ i a Hi), Hholds in Hone. lia. }
    rewrite Hzero in Hlive'. unfold use_count in Hlive'.
    assert (CDBEnv.mapFileUseCount env' !! F = None) as Hcnt'.
    { destruct (CDBEnv.mapFileUseCount env' !! F) as [n |] eqn:Hcnt'; [| done].
      apply Hpos' in Hcnt'. simpl in Hlive'. lia. }
    split_and!; [| done | done].
    apply eq_None_not_Some. by rewrite Hsame', Hcnt'; intros [? [=]].
Qed.

End RegistryFacts.

Lemma use_count_counts_live_accessors_witness :
  let B := sample_build false in
  Registry.reachable Registry.one_wallet ∧
  Registry.use_count (Registry.bitdb Registry.one_wallet) "wallet.dat" = 1 ∧
  Registry.opened "wallet.dat" Registry.one_wallet = 1%nat.
Proof.
  intros B.
  assert (Registry.reachable Registry.one_wallet) as Hreach.
  { apply (Registry.reach_step (Registry.fresh false "/data" (Some 1%positive))).
    - constructor.
    - apply (Registry.step_construct
               (Registry.fresh false "/data" (Some 1%positive)) "wallet.dat" false).
      apply (yields_call _ _ (0, Some 7%positive)). apply yields_done. }
  split; [done |].
  destruct (use_count_counts_live_accessors Registry.one_wallet "wallet.dat" Hreach)
    as (_ & Hcount & _).
  split; [rewrite Hcount |]; reflexivity.
Defined.

(** * Further properties of the record operations *)

Section Composition.
Context `{B : Build} `{E : Engine} `{!KvEngine E}.

Lemma run_true_open {K T} `{SK : Serializable K} `{SV : Serializable T}
    (a : CDB.t) (key : K) (value : T) (ow : bool) (st st' : St) :
  run (CDB.Write a key value ow) st = (Returned true, st') → is_Some (CDB.pdb a).
Proof.
  unfold CDB.Write. destruct (CDB.pdb a); [eauto |]. simpl. by intros [=].
Qed.

Lemma run_Erase_true_open {K} `{SK : Serializable K}
    (a : CDB.t) (key : K) (st st' : St) :
  run (CDB.Erase a key) st = (Returned true, st') → is_Some (CDB.pdb a).
Proof.
  unfold CDB.Erase. destruct (CDB.pdb a); [eauto |]. simpl. by intros [=].
Qed.

(** X1. On an open accessor, read-only or not, Exists returns without
    stopping, its result is whether the engine holds a record under the
    encoded key, and the content is as it was. *)
Theorem exists_reports_presence {K} `{SK : Serializable K}
    (a : CDB.t) (db : DB) (key : K) (st : St) :
  CDB.pdb a = Some db →
  ∃ st',
    run (CDB.Exists a key) st
      = (Returned (bool_decide (is_Some (view st db (CDB.activeTxn a) !! encoded key))), st') ∧
    view st' db (CDB.activeTxn a) = view st db (CDB.activeTxn a).
Proof.
  intros Hdb. destruct (run (CDB.Exists a key) st) as [r st'] eqn:Hrun.
  destruct (run_Exists_law a db key st st' r Hdb Hrun) as [Hview ->]. eauto.
Qed.

(** X2. Once Erase of a key has returned true, and whatever record
    operations at keys with another encoding have run since, Read of the
    key returns false and leaves the caller's value alone, and Exists
    returns false. *)
Theorem erase_then_absent {K T} `{SK : Serializable K} `{SV : Serializable T}
    (a : CDB.t) (key : K) (old : T) (ops : list op) (st st1 st2 : St) :
  Forall (λ o, op_key o ≠ encoded key) ops →
  run (CDB.Erase a key) st = (Returned true, st1) →
  run_ops a ops st1 = (Returned tt, st2) →
  (run (CDB.Read a key old) st2).1 = Returned (false, old) ∧
  (run (CDB.Exists a key) st2).1 = Returned false.
Proof.
  intros Hops Herase Hrun.
  destruct (run_Erase_true_open a key st st1 Herase) as [db Hdb].
  destruct (run_Erase_law a db key st st1 _ Hdb Herase) as [[_ Hv1] | ([msg [=]] & _)].
  pose proof (run_ops_other a db ops (encoded key) st1 st2 _ Hdb Hops Hrun) as Hkeep.
  rewrite Hv1, lookup_delete_eq in Hkeep. split.
  - destruct (run (CDB.Read a key old) st2) as [r st3] eqn:Hread.
    destruct (run_Read_law a db key old st2 st3 r Hdb Hread) as [_ Hr].
    by rewrite Hkeep in Hr.
  - destruct (run (CDB.Exists a key) st2) as [r3 st3] eqn:Hex.
    destruct (run_Exists_law a db key st2 st3 r3 Hdb Hex) as [_ ->].
    simpl. by rewrite Hkeep.
Qed.

(** X3. After a Write of a key that returned true, a second Write to the
    same key decides what Read delivers: the second value when the second
    Write returned true, still the first value when it returned false (the
    engine refused it, as under no-overwrite). *)
Theorem last_write_wins {K T} `{SK : Serializable K} `{SV : Serializable T}
    (a : CDB.t) (key : K) (v1 v2 old : T) (ow1 ow2 b : bool) (st st1 st2 : St) :
  roundtrips v1 → roundtrips v2 →
  run (CDB.Write a key v1 ow1) st = (Returned true, st1) →
  run (CDB.Write a key v2 ow2) st1 = (Returned b, st2) →
  (run (CDB.Read a key old) st2).1 = Returned (true, if b then v2 else v1).
Proof.
  intros Hrt1 Hrt2 Hw1 Hw2.
  destruct (run_true_open a key v1 ow1 st st1 Hw1) as [db Hdb].
  destruct (run_Write_law a db key v1 ow1 st st1 _ Hdb Hw1) as [[_ Hv1] | [? _]]; [| done].
  destruct (run (CDB.Read a key old) st2) as [r st3] eqn:Hread.
  destruct (run_Read_law a db key old st2 st3 r Hdb Hread) as [_ Hr].
  unfold roundtrips, stream_in in Hrt1, Hrt2. cbn [vch nType nVersion] in Hrt1, Hrt2.
  destruct (run_Write_law a db key v2 ow2 st1 st2 _ Hdb Hw2) as [[Hb Hv2] | [Hb Hv2]].
  - injection Hb as ->. rewrite Hv2, lookup_insert_eq in Hr. by rewrite (Hrt2 old) in Hr.
  - destruct b; [done |]. rewrite Hv2, Hv1, lookup_insert_eq in Hr.
    by rewrite (Hrt1 old) in Hr.
Qed.

(** X4. Read and Exists agree: when Read returns true, Exists of the same
    key returns true; when Exists returns false, Read returns false with the
    caller's value untouched; and Read leaves the content as it was. *)
Theorem read_agrees_with_exists {K T} `{SK : Serializable K} `{SV : Serializable T}
    (a : CDB.t) (key : K) (old : T) (st st' : St) (r : outcome (bool * T)) :
  run (CDB.Read a key old) st = (r, st') →
  (∀ v, r = Returned (true, v) → (run (CDB.Exists a key) st').1 = Returned true) ∧
  ((run (CDB.Exists a key) st).1 = Returned false → r = Returned (false, old)) ∧
  (∀ db, CDB.pdb a = Some db →
     view st' db (CDB.activeTxn a) = view st db (CDB.activeTxn a)).
Proof.
  intros Hread. destruct (CDB.pdb a) as [db |] eqn:Hdb.
  - destruct (run_Read_law a db key old st st' r Hdb Hread) as [Hview Hr].
    destruct (run (CDB.Exists a key) st) as [r1 st1] eqn:Hex.
    destruct (run (CDB.Exists a key) st') as [r2 st2] eqn:Hex'.
    destruct (run_Exists_law a db key st st1 r1 Hdb Hex) as [_ ->].
    destruct (run_Exists_law a db key st' st2 r2 Hdb Hex') as [_ ->].
    rewrite Hview. simpl.
    destruct (view st db (CDB.activeTxn a) !! encoded key) as [vb |] eqn:Hkb.
    + split_and!; [done | by intros [=] | by intros ? [= <-]].
    + subst r. split_and!; [by intros v [=] | done | by intros ? [= <-]].
  - unfold CDB.Read, CDB.Exists in *. rewrite Hdb in *. simpl in *.
    simplify_eq. split_and!; [by intros v [=] | done | done].
Qed.

(** X5. Once Write of a key has returned true, and whatever record
    operations at keys with another encoding have run since, Exists of the
    key returns true, whether or not the stored bytes decode. *)
Theorem write_then_exists {K T} `{SK : Serializable K} `{SV : Serializable T}
    (a : CDB.t) (key : K) (value : T) (fOverwrite : bool) (ops : list op)
    (st st1 st2 : St) :
  Forall (λ o, op_key o ≠ encoded key) ops →
  run (CDB.Write a key value fOverwrite) st = (Returned true, st1) →
  run_ops a ops st1 = (Returned tt, st2) →
  (run (CDB.Exists a key) st2).1 = Returned true.
Proof.
  intros Hops Hwrite Hrun.
  destruct (run_true_open a key value fOverwrite st st1 Hwrite) as [db Hdb].
  destruct (run_Write_law a db key value _ st st1 _ Hdb Hwrite) as [[_ Hv1] | [? _]];
    [| done].
  pose proof (run_ops_other a db ops (encoded key) st1 st2 _ Hdb Hops Hrun) as Hkeep.
  rewrite Hv1, lookup_insert_eq in Hkeep.
  destruct (run (CDB.Exists a key) st2) as [r3 st3] eqn:Hex.
  destruct (run_Exists_law a db key st2 st3 r3 Hdb Hex) as [_ ->].
  simpl. by rewrite Hkeep.
Qed.

Lemma run_op_reads (a : CDB.t) (db : DB) (o : op) (st st' : St) r :
  CDB.pdb a = Some db → op_reads o = true → run_op a o st = (r, st') →
  view st' db (CDB.activeTxn a) = view st db (CDB.activeTxn a).
Proof.
  intros Hdb Ho. destruct o; simpl in *; try done;
    destruct (run _ st) as [r1 st1] eqn:Hrun; intros [= <- <-].
  - by destruct (run_Read_law a db _ _ _ _ _ Hdb Hrun) as [-> _].
  - by destruct (run_Exists_law a db _ _ _ _ Hdb Hrun) as [-> _].
Qed.

(** X6. A sequence of record operations on an accessor, run to its end or
    to the point where it stops, changes the content only under the keys
    it writes or erases: every key with an encoding none of the operations
    uses holds what it held, and a sequence of Reads and Exists changes
    nothing at all. *)
Theorem record_ops_frame (a : CDB.t) (db : DB) (ops : list op) (st st' : St)
    (r : outcome unit) :
  CDB.pdb a = Some db →
  run_ops a ops st = (r, st') →
  (∀ kb, Forall (λ o, op_key o ≠ kb) ops →
     view st' db (CDB.activeTxn a) !! kb = view st db (CDB.activeTxn a) !! kb) ∧
  (Forall (λ o, op_reads o = true) ops →
     view st' db (CDB.activeTxn a) = view st db (CDB.activeTxn a)).
Proof.
  intros Hdb Hrun. split.
  - intros kb Hops. by eapply run_ops_other.
  - intros Hreads. revert st Hrun.
    induction Hreads as [| o ops Ho Hreads IH]; intros st; simpl.
    + by intros [= _ <-].
    + destruct (run_op a o st) as [[[] | why] st1] eqn:Hop.
      * intros Hrun. rewrite (IH _ Hrun). by eapply run_op_reads.
      * intros [= _ <-]. by eapply run_op_reads.
Qed.

End Composition.

(** ** What each method does with the engine's answer *)

(** X7. On an open accessor Read issues one engine get and then: it
    returns true exactly when the engine reported 0, set the value pointer
    and the bytes decoded; the caller's value is untouched when the pointer
    stayed null; and whenever the bytes decode, the decoded value is
    delivered, also when the status was non-zero and Read returns false. *)
Theorem read_result_characterised `{B : Build} {K T} `{SK : Serializable K}
    `{SV : Serializable T} (a : CDB.t) (db : DB) (key : K) (value : T) :
  CDB.pdb a = Some db →
  ∃ dk dv k,
    CDB.Read a key value = Call (DbGet db (CDB.activeTxn a) dk dv 0) k ∧
    ∀ ret dv', ∃ b v,
      k (ret, dv') = Done (b, v) ∧
      (b = true ↔
         ret = 0 ∧ ∃ buf, data dv' = Some buf ∧
                          Unserialize SER_DISK CLIENT_VERSION buf value = Parsed v) ∧
      (data dv' = None → v = value) ∧
      (∀ buf v', data dv' = Some buf →
         Unserialize SER_DISK CLIENT_VERSION buf value = Parsed v' → v = v').
Proof.
  intros Hdb. unfold CDB.Read, stream_in. rewrite Hdb.
  eexists _, _, _. split; [reflexivity |]. intros ret dv'. simpl.
  destruct (data dv') as [buf |] eqn:Hbuf.
  - destruct (Unserialize SER_DISK CLIENT_VERSION buf value) as [v | partial] eqn:Hdec.
    + exists (bool_decide (ret = 0)), v. split_and!; [done | | done |].
      * rewrite bool_decide_eq_true. split; [eauto | tauto].
      * intros buf' v' [= <-]. congruence.
    + exists false, partial. split_and!; [done | | done |].
      * split; [done |]. intros (_ & buf' & [= <-] & Hp). congruence.
      * intros buf' v' [= <-]. congruence.
  - exists false, value. split_and!; [done | | done | done].
    split; [done |]. by intros (_ & buf' & [=] & _).
Qed.

Lemma read_result_characterised_witness :
  let B := sample_build false in
  CDB.pdb (sample_accessor false) = Some 1%positive ∧
  ∃ dk dv k,
    CDB.Read (sample_accessor false) "k"%byte "z"%byte
      = Call (DbGet 1%positive None dk dv 0) k ∧
    ∃ b, k (22, mkDBT (Some ["v"%byte]) 0) = Done (b, "v"%byte) ∧ b ≠ true.
Proof.
  intros B. split; [reflexivity |].
  destruct (read_result_characterised (sample_accessor false) 1%positive
              "k"%byte "z"%byte eq_refl) as (dk & dv & k & Heq & Hk).
  exists dk, dv, k. split; [exact Heq |].
  destruct (Hk 22 (mkDBT (Some ["v"%byte]) 0)) as (b & v & Hkv & Hb & _ & Hv).
  assert (v = "v"%byte) as -> by exact (Hv ["v"%byte] "v"%byte eq_refl eq_refl).
  exists b. split; [exact Hkv |].
  intros Htrue. apply Hb in Htrue as [Hret _]. discriminate Hret.
Defined.

(** X8. The read-only assertion is the only thing that makes a record
    operation stop the process: Write and Erase return on every execution
    unless the accessor is open, read-only and the build keeps assertions;
    Exists, TxnCommit and TxnAbort return on every execution of every
    accessor. *)
Theorem stops_only_at_readonly_assert `{B : Build} {K T} `{SK : Serializable K}
    `{SV : Serializable T} (a : CDB.t) (key : K) (value : T) (fOverwrite : bool) :
  (returns_only (λ _, True) (CDB.Write a key value fOverwrite) ↔
     ¬ (is_Some (CDB.pdb a) ∧ CDB.fReadOnly a = true ∧ NDEBUG = false)) ∧
  (returns_only (λ _, True) (CDB.Erase a key) ↔
     ¬ (is_Some (CDB.pdb a) ∧ CDB.fReadOnly a = true ∧ NDEBUG = false)) ∧
  returns_only (λ _, True) (CDB.Exists a key) ∧
  returns_only (λ _, True) (CDB.TxnCommit a) ∧
  returns_only (λ _, True) (CDB.TxnAbort a).
Proof.
  unfold CDB.Write, CDB.Erase, CDB.Exists, CDB.TxnCommit, CDB.TxnAbort, c_assert.
  destruct (CDB.pdb a) as [db |], (CDB.fReadOnly a), NDEBUG,
    (CDB.activeTxn a) as [txn |]; simpl; split_and!; try done;
    try (split; [intros _ (? & ? & ?); by simplify_eq | done]);
    try (split; [done | intros Hno; apply Hno; eauto]);
    try (split; [intros _ ([? [=]] & _) | done]).
Qed.

(** X9. On an open accessor with no transaction, in an opened environment,
    TxnBegin asks the engine for one transaction, without parent and with
    [DB_TXN_WRITE_NOSYNC]; when the engine reports 0 and hands out a
    transaction it returns true and the accessor holds that transaction,
    everything else unchanged; otherwise it returns false and the accessor
    is as it was. *)
Theorem accessor_txn_begin `{B : Build} (bitdb : CDBEnv.t) (a : CDB.t) (db : DB)
    (e : DB_ENV) :
  CDB.pdb a = Some db → CDB.activeTxn a = None → CDBEnv.dbenv bitdb = Some e →
  ∃ k,
    CDB.TxnBegin bitdb a = Call (EnvTxnBegin e None DB_TXN_WRITE_NOSYNC) k ∧
    ∀ ret ptxn,
      (ret = 0 → ∀ txn, ptxn = Some txn →
         k (ret, ptxn) =
           Done (true, {| CDB.pdb := Some db; CDB.strFile := CDB.strFile a;
                          CDB.activeTxn := Some txn;
                          CDB.fReadOnly := CDB.fReadOnly a |})) ∧
      (ret ≠ 0 ∨ ptxn = None → k (ret, ptxn) = Done (false, a)).
Proof.
  intros Hdb Htxn Henv.
  unfold CDB.TxnBegin, CDBEnv.TxnBegin_default, CDBEnv.TxnBegin.
  rewrite Hdb, Htxn, Henv. simpl.
  eexists. split; [reflexivity |]. intros ret ptxn. split.
  - by intros -> txn ->.
  - intros [Hret | ->]; [| done].
    rewrite (bool_decide_eq_false_2 (ret = 0)) by done.
    by rewrite orb_true_r.
Qed.

Lemma accessor_txn_begin_witness :
  let B := sample_build false in
  CDB.pdb (sample_accessor false) = Some 1%positive ∧
  CDB.activeTxn (sample_accessor false) = None ∧
  CDBEnv.dbenv sample_env = Some 1%positive ∧
  ∃ k, CDB.TxnBegin sample_env (sample_accessor false)
         = Call (EnvTxnBegin 1%positive None DB_TXN_WRITE_NOSYNC) k.
Proof.
  intros B. split_and!; [reflexivity.. |].
  destruct (accessor_txn_begin sample_env (sample_accessor false) 1%positive 1%positive
              eq_refl eq_refl eq_refl) as (k & Heq & _).
  by exists k.
Defined.

(** X10. Transaction calls in sequence.  After a TxnBegin that returned
    true the accessor holds a transaction and a second TxnBegin returns
    false without an engine call or a change.  After a TxnCommit or TxnAbort
    that returned true the accessor holds none, and a further TxnCommit or
    TxnAbort returns false without an engine call or a change.  None of the
    three ever changes the handle, the file name or the read-only flag. *)
Theorem txn_calls_in_sequence `{B : Build} (bitdb : CDBEnv.t) (a a' : CDB.t) (b : bool) :
  (yields (CDB.TxnBegin bitdb a) (true, a') →
     is_Some (CDB.activeTxn a') ∧ CDB.TxnBegin bitdb a' = Done (false, a')) ∧
  (yields (CDB.TxnCommit a) (true, a') ∨ yields (CDB.TxnAbort a) (true, a') →
     CDB.activeTxn a' = None ∧
     CDB.TxnCommit a' = Done (false, a') ∧ CDB.TxnAbort a' = Done (false, a')) ∧
  (yields (CDB.TxnBegin bitdb a) (b, a') ∨ yields (CDB.TxnCommit a) (b, a') ∨
   yields (CDB.TxnAbort a) (b, a') →
     CDB.pdb a' = CDB.pdb a ∧ CDB.strFile a' = CDB.strFile a ∧
     CDB.fReadOnly a' = CDB.fReadOnly a).
Proof.
  unfold CDB.TxnBegin, CDB.TxnCommit, CDB.TxnAbort.
  destruct a as [[db |] f [txn |] ro]; simpl; split_and!.
  all: intros Hy;
    repeat match type of Hy with _ ∨ _ => destruct Hy as [Hy | Hy] end;
    try (apply yields_bind in Hy as ([txn' |] & _ & Hy));
    apply yields_inv in Hy; simpl in Hy;
    try lazymatch type of Hy with
        | ex _ => destruct Hy as [ret Hy]; apply yields_inv in Hy
        end;
    simplify_eq; simpl; eauto.
  all: by rewrite orb_true_r.
Qed.

(** X11. An accessor without a handle is inert: every sequence of record
    operations on it returns to its end and leaves any engine exactly as
    it was, the three transaction calls return false without touching the
    accessor (whatever its transaction pointer holds), ReadVersion returns
    false with the version set to 0 and WriteVersion returns false. *)
Theorem closed_accessor_inert `{B : Build} (a : CDB.t) :
  CDB.pdb a = None →
  (∀ (E : Engine) (ops : list op) (st : St), run_ops a ops st = (Returned tt, st)) ∧
  (∀ bitdb, CDB.TxnBegin bitdb a = Done (false, a)) ∧
  CDB.TxnCommit a = Done (false, a) ∧
  CDB.TxnAbort a = Done (false, a) ∧
  (∀ (SS : Serializable string) (SI : Serializable Z) (n : Z),
     CDB.ReadVersion a n = Done (false, 0) ∧ CDB.WriteVersion a n = Done false).
Proof.
  intros Hnull. split_and!.
  - intros E ops st. induction ops as [| o ops IH]; [done |]. simpl.
    replace (run_op a o st) with (Returned tt, st); [done |].
    destruct o; simpl; unfold CDB.Read, CDB.Write, CDB.Erase, CDB.Exists;
      by rewrite Hnull.
  - intros bitdb. unfold CDB.TxnBegin. by rewrite Hnull.
  - unfold CDB.TxnCommit. by rewrite Hnull.
  - unfold CDB.TxnAbort. by rewrite Hnull.
  - intros SS SI n. unfold CDB.ReadVersion, CDB.WriteVersion, CDB.Read, CDB.Write.
    by rewrite Hnull.
Qed.

Lemma closed_accessor_inert_witness :
  let B := sample_build false in
  CDB.pdb closed_accessor = None ∧
  run_ops (E := MapEngine.engine) closed_accessor
      [OpWrite "k"%byte "v"%byte true; OpErase "k"%byte] damaged_store
    = (Returned tt, damaged_store).
Proof.
  intros B. split; [reflexivity |].
  apply (closed_accessor_inert closed_accessor eq_refl).
Defined.

(** ** The version record *)

Section Version.
Context `{B : Build} `{E : Engine} `{!KvEngine E}.
Context `{SS : Serializable string} `{SI : Serializable Z}.

(** X12. Once WriteVersion has returned true for a version number that
    round-trips through the codec, and whatever record operations at keys
    encoded differently from the string "version" have run since,
    ReadVersion returns true and delivers that number, whatever the
    caller's variable held. *)
Theorem version_roundtrip (a : CDB.t) (n m : Z) (ops : list op) (st st1 st2 : St) :
  roundtrips n →
  Forall (λ o, op_key o ≠ encoded "version"%string) ops →
  run (CDB.WriteVersion a n) st = (Returned true, st1) →
  run_ops a ops st1 = (Returned tt, st2) →
  (run (CDB.ReadVersion a m) st2).1 = Returned (true, n).
Proof.
  unfold CDB.WriteVersion, CDB.ReadVersion. intros Hrt Hops Hwrite Hrun.
  destruct (run_true_open a "version"%string n true st st1 Hwrite) as [db Hdb].
  destruct (run_Write_law a db "version"%string n true st st1 _ Hdb Hwrite)
    as [[_ Hv1] | [? _]]; [| done].
  pose proof (run_ops_other a db ops _ st1 st2 _ Hdb Hops Hrun) as Hkeep.
  rewrite Hv1, lookup_insert_eq in Hkeep.
  destruct (run (CDB.Read a "version"%string 0) st2) as [r st3] eqn:Hread.
  destruct (run_Read_law a db "version"%string 0 st2 st3 r Hdb Hread) as [_ Hr].
  rewrite Hkeep in Hr. unfold roundtrips, stream_in in Hrt.
  cbn [vch nType nVersion] in Hrt. by rewrite (Hrt 0) in Hr.
Qed.

(** X13. When the accessor has no handle, or the engine holds no record
    under the encoded string "version", ReadVersion returns false and the
    caller's version is 0, whatever it held before the call. *)
Theorem version_missing_gives_zero (a : CDB.t) (m : Z) (st : St) :
  (∀ db, CDB.pdb a = Some db →
     view st db (CDB.activeTxn a) !! encoded "version"%string = None) →
  (run (CDB.ReadVersion a m) st).1 = Returned (false, 0).
Proof.
  unfold CDB.ReadVersion. intros Hmiss.
  destruct (CDB.pdb a) as [db |] eqn:Hdb.
  - destruct (run (CDB.Read a "version"%string 0) st) as [r st1] eqn:Hread.
    destruct (run_Read_law a db "version"%string 0 st st1 r Hdb Hread) as [_ Hr].
    by rewrite (Hmiss db eq_refl) in Hr.
  - unfold CDB.Read. by rewrite Hdb.
Qed.

End Version.

(** ** The properties above at work on the reference engine *)

Lemma exists_reports_presence_witness :
  let B := sample_build false in
  CDB.pdb (sample_accessor true) = Some 1%positive ∧
  ∃ st', run (E := MapEngine.engine) (CDB.Exists (sample_accessor true) "k"%byte)
           damaged_store = (Returned true, st').
Proof.
  intros B. split; [reflexivity |].
  destruct (exists_reports_presence (E := MapEngine.engine) (sample_accessor true)
              1%positive "k"%byte damaged_store eq_refl) as (st' & Hrun & _).
  exists st'. exact Hrun.
Defined.

Lemma erase_then_absent_witness :
  let B := sample_build false in
  let a := sample_accessor false in
  let ops := [OpWrite "a"%byte "x"%byte true; OpExists "b"%byte] in
  let st1 := (run (E := MapEngine.engine) (CDB.Erase a "k"%byte) damaged_store).2 in
  let st2 := (run_ops (E := MapEngine.engine) a ops st1).2 in
  Forall (λ o, op_key o ≠ encoded "k"%byte) ops ∧
  run (E := MapEngine.engine) (CDB.Erase a "k"%byte) damaged_store = (Returned true, st1) ∧
  run_ops (E := MapEngine.engine) a ops st1 = (Returned tt, st2) ∧
  (run (E := MapEngine.engine) (CDB.Read a "k"%byte "z"%byte) st2).1
    = Returned (false, "z"%byte).
Proof.
  intros B a ops st1 st2.
  assert (Hops : Forall (λ o, op_key o ≠ encoded "k"%byte) ops)
    by (repeat constructor; intros Heq; vm_compute in Heq; discriminate Heq).
  assert (H1 : run (E := MapEngine.engine) (CDB.Erase a "k"%byte) damaged_store
               = (Returned true, st1)) by (vm_compute; reflexivity).
  assert (H2 : run_ops (E := MapEngine.engine) a ops st1 = (Returned tt, st2))
    by (vm_compute; reflexivity).
  split_and!; [exact Hops | exact H1 | exact H2 |].
  exact (proj1 (erase_then_absent (E := MapEngine.engine) a "k"%byte "z"%byte ops
                  damaged_store st1 st2 Hops H1 H2)).
Defined.

Lemma last_write_wins_witness :
  let B := sample_build false in
  let a := sample_accessor false in
  let st1 := (run (E := MapEngine.engine) (CDB.Write a "k"%byte "v"%byte true)
                MapEngine.empty).2 in
  let st2 := (run (E := MapEngine.engine) (CDB.Write a "k"%byte "w"%byte false) st1).2 in
  roundtrips "v"%byte ∧ roundtrips "w"%byte ∧
  run (E := MapEngine.engine) (CDB.Write a "k"%byte "v"%byte true) MapEngine.empty
    = (Returned true, st1) ∧
  run (E := MapEngine.engine) (CDB.Write a "k"%byte "w"%byte false) st1
    = (Returned false, st2) ∧
  (run (E := MapEngine.engine) (CDB.Read a "k"%byte "z"%byte) st2).1
    = Returned (true, "v"%byte).
Proof.
  intros B a st1 st2.
  assert (Hv : roundtrips "v"%byte) by (intros old; reflexivity).
  assert (Hw : roundtrips "w"%byte) by (intros old; reflexivity).
  assert (H1 : run (E := MapEngine.engine) (CDB.Write a "k"%byte "v"%byte true)
                 MapEngine.empty = (Returned true, st1)) by (vm_compute; reflexivity).
  assert (H2 : run (E := MapEngine.engine) (CDB.Write a "k"%byte "w"%byte false) st1
               = (Returned false, st2)) by (vm_compute; reflexivity).
  split_and!; [exact Hv | exact Hw | exact H1 | exact H2 |].
  exact (last_write_wins (E := MapEngine.engine) a "k"%byte "v"%byte "w"%byte "z"%byte
           true false false MapEngine.empty st1 st2 Hv Hw H1 H2).
Defined.

Lemma read_agrees_with_exists_witness :
  let B := sample_build false in
  let a := sample_accessor false in
  let r := (run (E := MapEngine.engine) (CDB.Read a "k"%byte "z"%byte) damaged_store).1 in
  let st' := (run (E := MapEngine.engine) (CDB.Read a "k"%byte "z"%byte) damaged_store).2 in
  run (E := MapEngine.engine) (CDB.Read a "k"%byte "z"%byte) damaged_store = (r, st') ∧
  view st' 1%positive None = view damaged_store 1%positive None.
Proof.
  intros B a r st'.
  assert (H1 : run (E := MapEngine.engine) (CDB.Read a "k"%byte "z"%byte) damaged_store
               = (r, st')) by (vm_compute; reflexivity).
  split; [exact H1 |].
  destruct (read_agrees_with_exists (E := MapEngine.engine) a "k"%byte "z"%byte
              damaged_store st' r H1) as (_ & _ & Hview).
  exact (Hview 1%positive eq_refl).
Defined.

Lemma write_then_exists_witness :
  let B := sample_build false in
  let a := sample_accessor false in
  let ops := [OpErase "a"%byte; OpRead "b"%byte "y"%byte] in
  let st1 := (run (E := MapEngine.engine) (CDB.Write a "k"%byte "v"%byte false)
                MapEngine.empty).2 in
  let st2 := (run_ops (E := MapEngine.engine) a ops st1).2 in
  Forall (λ o, op_key o ≠ encoded "k"%byte) ops ∧
  run (E := MapEngine.engine) (CDB.Write a "k"%byte "v"%byte false) MapEngine.empty
    = (Returned true, st1) ∧
  run_ops (E := MapEngine.engine) a ops st1 = (Returned tt, st2) ∧
  (run (E := MapEngine.engine) (CDB.Exists a "k"%byte) st2).1 = Returned true.
Proof.
  intros B a ops st1 st2.
  assert (Hops : Forall (λ o, op_key o ≠ encoded "k"%byte) ops)
    by (repeat constructor; intros Heq; vm_compute in Heq; discriminate Heq).
  assert (H1 : run (E := MapEngine.engine) (CDB.Write a "k"%byte "v"%byte false)
                 MapEngine.empty = (Returned true, st1)) by (vm_compute; reflexivity).
  assert (H2 : run_ops (E := MapEngine.engine) a ops st1 = (Returned tt, st2))
    by (vm_compute; reflexivity).
  split_and!; [exact Hops | exact H1 | exact H2 |].
  exact (write_then_exists (E := MapEngine.engine) a "k"%byte "v"%byte false ops
           MapEngine.empty st1 st2 Hops H1 H2).
Defined.

Lemma record_ops_frame_witness :
  let B := sample_build false in
  let a := sample_accessor false in
  let ops := [OpWrite "a"%byte "x"%byte true; OpErase "b"%byte] in
  let r := (run_ops (E := MapEngine.engine) a ops damaged_store).1 in
  let st' := (run_ops (E := MapEngine.engine) a ops damaged_store).2 in
  CDB.pdb a = Some 1%positive ∧
  run_ops (E := MapEngine.engine) a ops damaged_store = (r, st') ∧
  view st' 1%positive None !! ["k"%byte] = view damaged_store 1%positive None !! ["k"%byte].
Proof.
  intros B a ops r st'.
  assert (H1 : run_ops (E := MapEngine.engine) a ops damaged_store = (r, st'))
    by (vm_compute; reflexivity).
  split_and!; [reflexivity | exact H1 |].
  destruct (record_ops_frame (E := MapEngine.engine) a 1%positive ops damaged_store st' r
              eq_refl H1) as [Hframe _].
  apply Hframe. repeat constructor; intros Heq; vm_compute in Heq; discriminate Heq.
Defined.

Lemma version_roundtrip_witness :
  let B := sample_build false in
  let SS := sample_string_codec in
  let SI := sample_int_codec in
  let a := sample_accessor false in
  let ops := [OpWrite "k"%byte "v"%byte true] in
  let st1 := (run (E := MapEngine.engine) (CDB.WriteVersion a 60300) MapEngine.empty).2 in
  let st2 := (run_ops (E := MapEngine.engine) a ops st1).2 in
  roundtrips 60300 ∧
  Forall (λ o, op_key o ≠ encoded "version"%string) ops ∧
  run (E := MapEngine.engine) (CDB.WriteVersion a 60300) MapEngine.empty
    = (Returned true, st1) ∧
  run_ops (E := MapEngine.engine) a ops st1 = (Returned tt, st2) ∧
  (run (E := MapEngine.engine) (CDB.ReadVersion a (-1)) st2).1 = Returned (true, 60300).
Proof.
  intros B SS SI a ops st1 st2.
  assert (Hrt : roundtrips 60300) by (intros old; vm_compute; reflexivity).
  assert (Hops : Forall (λ o, op_key o ≠ encoded "version"%string) ops)
    by (repeat constructor; intros Heq; vm_compute in Heq; discriminate Heq).
  assert (H1 : run (E := MapEngine.engine) (CDB.WriteVersion a 60300) MapEngine.empty
               = (Returned true, st1)) by (vm_compute; reflexivity).
  assert (H2 : run_ops (E := MapEngine.engine) a ops st1 = (Returned tt, st2))
    by (vm_compute; reflexivity).
  split_and!; [exact Hrt | exact Hops | exact H1 | exact H2 |].
  exact (version_roundtrip (E := MapEngine.engine) a 60300 (-1) ops MapEngine.empty
           st1 st2 Hrt Hops H1 H2).
Defined.

Lemma version_missing_gives_zero_witness :
  let B := sample_build false in
  let SS := sample_string_codec in
  let SI := sample_int_codec in
  (∀ db, CDB.pdb (sample_accessor false) = Some db →
     view (E := MapEngine.engine) damaged_store db None !! encoded "version"%string = None) ∧
  (run (E := MapEngine.engine) (CDB.ReadVersion (sample_accessor false) 7) damaged_store).1
    = Returned (false, 0).
Proof.
  intros B SS SI.
  assert (Hmiss : ∀ db, CDB.pdb (sample_accessor false) = Some db →
            view (E := MapEngine.engine) damaged_store db None
              !! encoded "version"%string = None)
    by (intros db [= <-]; vm_compute; reflexivity).
  split; [exact Hmiss |].
  exact (version_missing_gives_zero (E := MapEngine.engine) (sample_accessor false) 7
           damaged_store Hmiss).
Defined.

(** ** The methods at work on the reference engine *)

Example read_missing_key :
  let B := sample_build false in
  run (E := MapEngine.engine) (CDB.Read (sample_accessor false) "k"%byte "z"%byte)
      MapEngine.empty
    = (Returned (false, "z"%byte), MapEngine.empty).
Proof. reflexivity. Qed.

Example exists_sees_undecodable_value :
  let B := sample_build false in
  (run (E := MapEngine.engine) (CDB.Exists (sample_accessor false) "k"%byte)
       damaged_store).1 = Returned true.
Proof. vm_compute. reflexivity. Qed.

Example read_undecodable_value :
  let B := sample_build false in
  (run (E := MapEngine.engine) (CDB.Read (sample_accessor false) "k"%byte "z"%byte)
       damaged_store).1 = Returned (false, "z"%byte).
Proof. vm_compute. reflexivity. Qed.

Example write_no_overwrite_refused :
  let B := sample_build false in
  let a := sample_accessor false in
  ∃ st1,
    run (E := MapEngine.engine) (CDB.Write a "k"%byte "v"%byte true) MapEngine.empty
      = (Returned true, st1) ∧
    (run (E := MapEngine.engine) (CDB.Write a "k"%byte "w"%byte false) st1).1
      = Returned false ∧
    (run (E := MapEngine.engine) (CDB.Read a "k"%byte "z"%byte) st1).1
      = Returned (true, "v"%byte).
Proof. eexists. split_and!; [reflexivity | vm_compute; reflexivity..]. Qed.

Example cursor_at_end :
  let B := sample_build false in
  (run (E := MapEngine.engine)
     (CDB.ReadAtCursor_default (Some 1%positive) (sample_stream []) (sample_stream []))
     MapEngine.empty).1
    = Returned (DB_NOTFOUND, sample_stream [], sample_stream []).
Proof. reflexivity. Qed.

Example commit_clears_transaction :
  let B := sample_build false in
  let a := sample_accessor false in
  ∃ txn st1 a1,
    run (E := MapEngine.engine) (CDB.TxnBegin sample_env a) MapEngine.empty
      = (Returned (true, a1), st1) ∧
    CDB.activeTxn a1 = Some txn ∧
    (run (E := MapEngine.engine) (CDB.TxnBegin sample_env a1) st1).1
      = Returned (false, a1) ∧
    (run (E := MapEngine.engine) (CDB.TxnCommit a1) st1).1 = Returned (true, a).
Proof. eexists _, _, _. split_and!; reflexivity. Qed.
